(** * pdftocgen.filter: filters on span dictionaries

    A shallow embedding of [src/pdftocgen/filter.py]: the predicates that
    decide whether a text span is a heading ([FontFilter],
    [BoundingBoxFilter], [ToCFilter]), the run merger [merge_optional] and
    the driver [extract_toc], followed by the properties proved of them.

    Python values are modelled as the source annotates them: [int] as [Z]
    (unbounded, two's-complement bit operations), [float] as IEEE 754
    binary64 ([PrimFloat.float], the integer 0 of a default position being
    the float 0), [str] as [string], a dictionary read only through [.get]
    and [in] as a record of optional fields (a missing key is [None]), and
    a raised exception as the [Raise] case of [result]. *)

From Stdlib Require Import ZArith List String Ascii Bool Lia Floats.
Import ListNotations.

Set Implicit Arguments.

(** ** Exceptions *)

(** The exceptions the module can raise, directly or through the built-ins
    it calls. *)
Inductive exn : Type :=
| ValueError (msg : string)
    (** [raise ValueError(msg)], also from [min] and tuple unpacking *)
| JoinTypeError (item : nat)
    (** [str.join]: "sequence item [item]: expected str instance, NoneType found" *)
| IterTypeError
    (** [zip( *grp)] over a [None] element: "'NoneType' object is not iterable" *)
| ReError (pattern : string)
    (** [re.error] raised by [re.compile] *)
| OverflowError (msg : string)
    (** raised by [re.compile] on a repetition count beyond the machine's *)
| Unsupported (pattern : string)
    (** no exception of Python: the answer of a regular-expression engine
        on a pattern of [re] that it does not cover *).

Inductive result (A : Type) : Type :=
| Ok (a : A)
| Raise (e : exn).

Arguments Ok {A} a.
Arguments Raise {A} e.

Definition bind {A B} (r : result A) (k : A -> result B) : result B :=
  match r with
  | Ok a => k a
  | Raise e => Raise e
  end.

Declare Scope result_scope.
Delimit Scope result_scope with result.
Notation "x <- r ;; k" := (bind r (fun x => k))
  (at level 61, r at next level, right associativity) : result_scope.
Notation "' p <- r ;; k" := (bind r (fun x => match x with p => k end))
  (at level 61, p pattern, r at next level, right associativity) : result_scope.
Open Scope result_scope.

(** A [for x in xs: ...] loop whose body updates the local state [s] and may
    raise. *)
Fixpoint for_each {A S} (xs : list A) (body : S -> A -> result S) (s : S)
  : result S :=
  match xs with
  | [] => Ok s
  | x :: xs' => s' <- body s x ;; for_each xs' body s'
  end.

(** [d.get(key, default)] on a field that may be missing. *)
Definition dict_get {A} (field : option A) (default : A) : A :=
  match field with
  | Some v => v
  | None => default
  end.

(** [key in d]. *)
Definition dict_has {A} (field : option A) : bool :=
  match field with
  | Some _ => true
  | None => false
  end.

(** ** Built-ins and library functions used by the module *)

(** [enumerate(xs, start)]. *)
Fixpoint enumerate {A} (start : Z) (xs : list A) : list (Z * A) :=
  match xs with
  | [] => []
  | x :: xs' => (start, x) :: enumerate (start + 1) xs'
  end.

(** [itertools.groupby(ls, key)]: the maximal runs of consecutive elements
    with equal keys, each with its key, in order. *)
Fixpoint groupby {A} (key : A -> bool) (ls : list A) : list (bool * list A) :=
  match ls with
  | [] => []
  | x :: ls' =>
      match groupby key ls' with
      | (k, grp) :: groups =>
          if Bool.eqb (key x) k then (k, x :: grp) :: groups
          else (key x, [x]) :: (k, grp) :: groups
      | [] => [(key x, [x])]
      end
  end.

(** [zip( *grp)] for a group of pairs: the tuple of first components and the
    tuple of second components.  A [None] element cannot be unpacked. *)
Fixpoint zip_star {A B} (grp : list (option (A * B)))
  : result (list A * list B) :=
  match grp with
  | [] => Ok ([], [])
  | None :: _ => Raise IterTypeError
  | Some (a, b) :: grp' =>
      '(xs, ys) <- zip_star grp' ;; Ok (a :: xs, b :: ys)
  end.

(** [strs, vtops = zip( *grp)]: unpacking needs exactly two tuples, and
    [zip] of no argument yields none. *)
Definition unpack_zip_star {A B} (grp : list (option (A * B)))
  : result (list A * list B) :=
  match grp with
  | [] => Raise (ValueError "not enough values to unpack (expected 2, got 0)")
  | _ => zip_star grp
  end.

(** [sep.join(items)]: every item has to be a [str]; [None] is not. *)
Fixpoint str_items (i : nat) (items : list (option string))
  : result (list string) :=
  match items with
  | [] => Ok []
  | None :: _ => Raise (JoinTypeError i)
  | Some s :: items' => ss <- str_items (S i) items' ;; Ok (s :: ss)
  end.

Definition str_join (sep : string) (items : list (option string))
  : result string :=
  ss <- str_items 0 items ;; Ok (String.concat sep ss).

(** [min(xs)]: the running minimum is replaced by a later item only when
    [item < minimum]. *)
Fixpoint min_from (cur : float) (xs : list float) : float :=
  match xs with
  | [] => cur
  | x :: xs' => min_from (if (x <? cur)%float then x else cur) xs'
  end.

Definition py_min (xs : list float) : result float :=
  match xs with
  | [] => Raise (ValueError "min() arg is an empty sequence")
  | x :: xs' => Ok (min_from x xs')
  end.

(** The two entry points of Python's [re] module the source calls.  The
    library is not part of the repository, so the development is
    parametric in it: [re_compile] returns the compiled pattern or raises
    what [re.compile] raises ([re.error] on a malformed pattern,
    [ValueError] or [OverflowError] on a repetition count that is too
    large), and [re_search p s] tells whether [p.search(s)] finds a
    match. *)
Class ReEngine : Type := {
  Pattern : Type;
  re_compile : string -> result Pattern;
  re_search : Pattern -> string -> bool
}.

(** ** Input records *)

Module Span.
Record t : Type := mk {
  text : option string;
  font : option string;
  size : option float;
  color : option Z;
  flags : option Z;
  bbox : option (float * float * float * float)
}.
End Span.

Module Line.
Record t : Type := mk { spans : option (list Span.t) }.
End Line.

Module Block.
Record t : Type := mk { lines : option (list Line.t) }.
End Block.

Module Page.
Record t : Type := mk { blocks : option (list Block.t) }.
End Page.

(** The [font] table of a filter configuration. *)
Module FontDict.
Record t : Type := mk {
  name : option string;
  size : option float;
  size_tolerance : option float;
  color : option Z;
  superscript : option bool;
  italic : option bool;
  serif : option bool;
  monospace : option bool;
  bold : option bool
}.
Definition empty : t := mk None None None None None None None None None.
End FontDict.

(** The [bbox] table of a filter configuration. *)
Module BBoxDict.
Record t : Type := mk {
  left : option float;
  top : option float;
  right : option float;
  bottom : option float;
  tolerance : option float
}.
Definition empty : t := mk None None None None None.
End BBoxDict.

Module FilterDict.
Record t : Type := mk {
  level : option Z;
  font : option FontDict.t;
  bbox : option BBoxDict.t
}.
End FilterDict.

(** Modelled from the spec: the [ToCEntry] record of [fitzutils], which is
    not among the source files; its fields are the level, the title, the
    1-based page number and the vertical position, in constructor order. *)
Module ToCEntry.
Record t : Type := mk {
  level : Z;
  title : string;
  pagenum : Z;
  vpos : float
}.
End ToCEntry.

(** ** [admits_float] *)

(** [1e-5], that is the binary64 number nearest to it. *)
Definition DEF_TOLERANCE : float := 0x1.4f8b588e368f1p-17%float.

Definition admits_float (expect actual : option float) (tolerance : float)
  : bool :=
  match expect with
  | None => true
  | Some e =>
      match actual with
      | None => false
      | Some a => (abs (e - a) <=? tolerance)%float
      end
  end.

(** ** [FontFilter] *)

Module FontFilter.
Section WithRe.
Context {re : ReEngine}.

Record t : Type := mk {
  name : Pattern;
  size : option float;
  size_tolerance : float;
  color : option Z;
  flags : Z;
  ign_mask : Z
}.

Definition init (font_dict : FontDict.t) : result t :=
  let pattern := dict_get (FontDict.name font_dict) ""%string in
  match re_compile pattern with
  | Raise e => Raise e
  | Ok name =>
      Ok {|
        name := name;
        size := FontDict.size font_dict;
        size_tolerance :=
          dict_get (FontDict.size_tolerance font_dict) DEF_TOLERANCE;
        color := FontDict.color font_dict;
        flags :=
          Z.lor (Z.lor (Z.lor (Z.lor
            (1 * Z.b2z (dict_get (FontDict.superscript font_dict) false))
            (2 * Z.b2z (dict_get (FontDict.italic font_dict) false)))
            (4 * Z.b2z (dict_get (FontDict.serif font_dict) false)))
            (8 * Z.b2z (dict_get (FontDict.monospace font_dict) false)))
            (16 * Z.b2z (dict_get (FontDict.bold font_dict) false));
        ign_mask :=
          Z.lor (Z.lor (Z.lor (Z.lor
            (1 * Z.b2z (dict_has (FontDict.superscript font_dict)))
            (2 * Z.b2z (dict_has (FontDict.italic font_dict))))
            (4 * Z.b2z (dict_has (FontDict.serif font_dict))))
            (8 * Z.b2z (dict_has (FontDict.monospace font_dict))))
            (16 * Z.b2z (dict_has (FontDict.bold font_dict)))
      |}
  end.

(** [self.color is not None and self.color != spn.get('color')] *)
Definition color_differs (expect actual : option Z) : bool :=
  match expect with
  | None => false
  | Some c =>
      match actual with
      | None => true
      | Some c' => negb (c =? c')%Z
      end
  end.

Definition admits (self : t) (spn : Span.t) : bool :=
  if negb (re_search (name self) (dict_get (Span.font spn) ""%string))
  then false
  else if color_differs (color self) (Span.color spn)
  then false
  else if negb (admits_float (size self) (Span.size spn)
                             (size_tolerance self))
  then false
  else
    let spn_flags := dict_get (Span.flags spn) (Z.lnot (flags self)) in
    (Z.land (Z.lxor spn_flags (flags self)) (ign_mask self) =? 0)%Z.
End WithRe.
End FontFilter.


(** ** [BoundingBoxFilter] *)

Module BoundingBoxFilter.
Record t : Type := mk {
  left : option float;
  top : option float;
  right : option float;
  bottom : option float;
  tolerance : float
}.

Definition init (bbox_dict : BBoxDict.t) : t :=
  {|
    left := BBoxDict.left bbox_dict;
    top := BBoxDict.top bbox_dict;
    right := BBoxDict.right bbox_dict;
    bottom := BBoxDict.bottom bbox_dict;
    tolerance := dict_get (BBoxDict.tolerance bbox_dict) DEF_TOLERANCE
  |}.

(** [spn.get('bbox', (None, None, None, None))], as its four components. *)
Definition coordinates (spn : Span.t)
  : option float * option float * option float * option float :=
  match Span.bbox spn with
  | Some (l, t, r, b) => (Some l, Some t, Some r, Some b)
  | None => (None, None, None, None)
  end.

Definition admits (self : t) (spn : Span.t) : bool :=
  let '(bbox0, bbox1, bbox2, bbox3) := coordinates spn in
  admits_float (left self) bbox0 (tolerance self) &&
  admits_float (top self) bbox1 (tolerance self) &&
  admits_float (right self) bbox2 (tolerance self) &&
  admits_float (bottom self) bbox3 (tolerance self).
End BoundingBoxFilter.

(** ** [ToCFilter] *)

Module ToCFilter.
Section WithRe.
Context {re : ReEngine}.

Record t : Type := mk {
  level : Z;
  font : FontFilter.t;
  bbox : BoundingBoxFilter.t
}.

Definition init (fltr_dict : FilterDict.t) : result t :=
  match FilterDict.level fltr_dict with
  | None => Raise (ValueError "filter's 'level' is not set")
  | Some level =>
      if (level <? 1)%Z
      then Raise (ValueError "filter's 'level' must be >= 1")
      else
        font <- FontFilter.init
                  (dict_get (FilterDict.font fltr_dict) FontDict.empty) ;;
        Ok {|
          level := level;
          font := font;
          bbox := BoundingBoxFilter.init
                    (dict_get (FilterDict.bbox fltr_dict) BBoxDict.empty)
        |}
  end.

Definition admits (self : t) (spn : Span.t) : bool :=
  FontFilter.admits (font self) spn && BoundingBoxFilter.admits (bbox self) spn.

(** [spn.get('bbox', (0, 0))[1]] *)
Definition bbox_top (spn : Span.t) : float :=
  match Span.bbox spn with
  | Some (_, t, _, _) => t
  | None => 0%float
  end.

(** An emitted pair keeps the text as [spn.get('text', None)] gives it: a
    string, or [None] when the span has no text. *)
Definition _extract_spans (self : t) (spns : list Span.t)
  : list (option (option string * float)) :=
  map (fun spn =>
         if admits self spn then Some (Span.text spn, bbox_top spn) else None)
      spns.

Definition _extract_lines (self : t) (lines : list Line.t)
  : list (option (option string * float)) :=
  List.concat (map (fun ln => _extract_spans self (dict_get (Line.spans ln) []))
                   lines).
End WithRe.
End ToCFilter.

(** ** [merge_optional] and [extract_toc] *)

(** [lambda x: x is None] *)
Definition is_None {A} (x : option A) : bool :=
  match x with
  | None => true
  | Some _ => false
  end.

Definition merge_optional (ls : list (option (option string * float)))
                          (sep : string)
  : result (list (string * float)) :=
  for_each (groupby is_None ls)
    (fun result '(nothing, grp) =>
       if negb nothing then
         '(strs, vtops) <- unpack_zip_star grp ;;
         joined <- str_join sep strs ;;
         top <- py_min vtops ;;
         Ok (result ++ [(joined, top)])
       else Ok result)
    [].

(** The default separator of [merge_optional]. *)
Definition DEF_SEP : string := " ".

Section WithRe.
Context {re : ReEngine}.

Definition extract_toc (pages : list Page.t) (fltr : ToCFilter.t)
  : result (list ToCEntry.t) :=
  for_each (enumerate 1 pages)
    (fun result '(pagenum, page) =>
       entries <-
         for_each (dict_get (Page.blocks page) [])
           (fun entries blk =>
              merged <- merge_optional
                          (ToCFilter._extract_lines fltr
                             (dict_get (Block.lines blk) []))
                          DEF_SEP ;;
              Ok (entries ++ merged))
           [] ;;
       Ok (result ++
           map (fun '(title, vpos) =>
                  ToCEntry.mk (ToCFilter.level fltr) title pagenum vpos)
               entries))
    [].
End WithRe.

(** ** A regular-expression engine for literal patterns

    An instance of [ReEngine] to evaluate the functions on concrete inputs.
    It covers two kinds of patterns.  A pattern without any metacharacter,
    the empty pattern among them, compiles, and [re] searches for it as a
    substring.  A pattern whose only metacharacters are parentheses that do
    not match, such as "(", is malformed, and [re.compile] raises
    [re.error] on it.  Every other pattern is outside the fragment: the
    instance answers [Unsupported] and says nothing of what [re] does. *)

Module LiteralRe.
Definition metacharacters : list ascii :=
  list_ascii_of_string ".^$*+?{}[]\|()".

Definition is_meta (c : ascii) : bool :=
  existsb (Ascii.eqb c) metacharacters.

Definition is_paren (c : ascii) : bool :=
  Ascii.eqb c "("%char || Ascii.eqb c ")"%char.

(** The parentheses of [cs] match, [depth] of them being open before. *)
Fixpoint balanced (depth : nat) (cs : list ascii) : bool :=
  match cs with
  | [] => Nat.eqb depth 0
  | c :: cs' =>
      if Ascii.eqb c "("%char then balanced (S depth) cs'
      else if Ascii.eqb c ")"%char then
        match depth with
        | O => false
        | S depth' => balanced depth' cs'
        end
      else balanced depth cs'
  end.

Definition compile (pattern : string) : result string :=
  let cs := list_ascii_of_string pattern in
  if negb (existsb is_meta cs) then Ok pattern
  else if forallb (fun c => negb (is_meta c) || is_paren c) cs
          && negb (balanced 0 cs)
  then Raise (ReError pattern)
  else Raise (Unsupported pattern).

Fixpoint search (pattern s : string) : bool :=
  String.prefix pattern s ||
  match s with
  | EmptyString => false
  | String _ s' => search pattern s'
  end.

#[export] Instance engine : ReEngine :=
  {| Pattern := string; re_compile := compile; re_search := search |}.
End LiteralRe.

(** ** Definitions used to state the properties *)

(** A regular-expression engine behaves as Python's on the empty pattern:
    it compiles, and it matches at the start of every string. *)
Definition empty_pattern_matches_all {re : ReEngine} : Prop :=
  exists p, re_compile ""%string = Ok p /\ forall s, re_search p s = true.

(** The five style flags and the bit each one occupies in a span's
    [flags]. *)
Inductive style_flag : Type :=
| superscript | italic | serif | monospace | bold.

Definition bit_of (s : style_flag) : Z :=
  match s with
  | superscript => 0
  | italic => 1
  | serif => 2
  | monospace => 3
  | bold => 4
  end.

(** What a font table says of a style flag: [None] when the key is
    missing. *)
Definition constraint_of (fd : FontDict.t) (s : style_flag) : option bool :=
  match s with
  | superscript => FontDict.superscript fd
  | italic => FontDict.italic fd
  | serif => FontDict.serif fd
  | monospace => FontDict.monospace fd
  | bold => FontDict.bold fd
  end.

(** Five booleans packed the way [FontFilter.init] packs the style flags,
    once for [flags] and once for [ign_mask]. *)
Definition pack (b0 b1 b2 b3 b4 : bool) : Z :=
  Z.lor (Z.lor (Z.lor (Z.lor
    (1 * Z.b2z b0) (2 * Z.b2z b1)) (4 * Z.b2z b2)) (8 * Z.b2z b3))
    (16 * Z.b2z b4).

(** The three checks [FontFilter.admits] makes before it looks at the style
    flags: font name, colour, size. *)
Definition passes_before_flags {re : ReEngine}
    (f : FontFilter.t) (spn : Span.t) : bool :=
  re_search (FontFilter.name f) (dict_get (Span.font spn) ""%string) &&
  negb (FontFilter.color_differs (FontFilter.color f) (Span.color spn)) &&
  admits_float (FontFilter.size f) (Span.size spn)
               (FontFilter.size_tolerance f).

(** [m] is a minimum of [vs] for the order of the floats. *)
Definition is_minimum (m : float) (vs : list float) : Prop :=
  In m vs /\ forall v, In v vs -> (m <=? v)%float = true.

(** *** Runs, following the specification of the run merger *)

(** A run is a block of consecutive markers ([None]) or of consecutive
    present pairs. *)
Inductive run : Type :=
| Markers (n : nat)
| Values (ps : list (string * float)).

Definition run_items (r : run) : list (option (string * float)) :=
  match r with
  | Markers n => repeat None n
  | Values ps => map Some ps
  end.

Definition is_markers (r : run) : bool :=
  match r with
  | Markers _ => true
  | Values _ => false
  end.

Definition run_nonempty (r : run) : Prop :=
  run_items r <> [].

(** Consecutive runs are of different kinds, which makes each one
    maximal. *)
Fixpoint alternating (rs : list run) : Prop :=
  match rs with
  | r1 :: (r2 :: _) as rs' => is_markers r1 <> is_markers r2 /\ alternating rs'
  | _ => True
  end.

(** [rs] is the partition of [ls] into maximal contiguous runs, in the
    original order. *)
Definition is_run_partition (ls : list (option (string * float)))
                            (rs : list run) : Prop :=
  List.concat (map run_items rs) = ls /\
  Forall run_nonempty rs /\
  alternating rs.

(** The value runs of a partition, in order. *)
Definition value_runs (rs : list run) : list (list (string * float)) :=
  flat_map (fun r => match r with Values ps => [ps] | Markers _ => [] end) rs.

(** The partition, computed. *)
Fixpoint runs_of (ls : list (option (string * float))) : list run :=
  match ls with
  | [] => []
  | None :: ls' =>
      match runs_of ls' with
      | Markers n :: rs => Markers (S n) :: rs
      | rs => Markers 1 :: rs
      end
  | Some p :: ls' =>
      match runs_of ls' with
      | Values ps :: rs => Values (p :: ps) :: rs
      | rs => Values [p] :: rs
      end
  end.

(** A list of optional pairs as the functions receive it when every text is
    a string. *)
Definition with_text (ls : list (option (string * float)))
  : list (option (option string * float)) :=
  map (option_map (fun p => (Some (fst p), snd p))) ls.

(** No position of the run is NaN. *)
Definition nan_free (ps : list (string * float)) : Prop :=
  forall v, In v (map snd ps) -> is_nan v = false.

(** [out] is the merged pair of the value run [ps]: the texts joined in
    order, and as position what [min] returns on the positions of the run,
    which is their minimum when none of them is NaN. *)
Definition merges_run (sep : string) (ps : list (string * float))
                      (out : string * float) : Prop :=
  fst out = String.concat sep (map fst ps) /\
  py_min (map snd ps) = Ok (snd out) /\
  (nan_free ps -> is_minimum (snd out) (map snd ps)).

(** *** Loops that only append *)

(** The results of [f] on the elements of [xs], concatenated; the first
    exception stops it. *)
Fixpoint flat_mapM {A B} (f : A -> result (list B)) (xs : list A)
  : result (list B) :=
  match xs with
  | [] => Ok []
  | x :: xs' => ys <- f x ;; rest <- flat_mapM f xs' ;; Ok (ys ++ rest)
  end.

(** What one iteration of the loop of [merge_optional] appends to
    [result]. *)
Definition merge_group (sep : string)
    (g : bool * list (option (option string * float)))
  : result (list (string * float)) :=
  let '(nothing, grp) := g in
  if negb nothing then
    '(strs, vtops) <- unpack_zip_star grp ;;
    joined <- str_join sep strs ;;
    top <- py_min vtops ;;
    Ok [(joined, top)]
  else Ok [].

(** *** Pages, following the specification of the extractor *)

Section WithRe.
Context {re : ReEngine}.

(** The merged pairs of one block; none when the merge raises. *)
Definition block_entries (fltr : ToCFilter.t) (blk : Block.t)
  : list (string * float) :=
  match merge_optional
          (ToCFilter._extract_lines fltr (dict_get (Block.lines blk) []))
          DEF_SEP
  with
  | Ok merged => merged
  | Raise _ => []
  end.

(** The entries of a page: block after block, every merged pair of the
    block with the level of the filter and the page number. *)
Definition page_entries (fltr : ToCFilter.t) (pagenum : Z) (page : Page.t)
  : list ToCEntry.t :=
  flat_map
    (fun blk =>
       map (fun p => ToCEntry.mk (ToCFilter.level fltr) (fst p)
                                 pagenum (snd p))
           (block_entries fltr blk))
    (dict_get (Page.blocks page) []).

(** The entries of a page list: page after page, the page at position [k]
    (from 0) with the number [k + 1]. *)
Definition toc_entries (fltr : ToCFilter.t) (pages : list Page.t)
  : list ToCEntry.t :=
  flat_map
    (fun k => match nth_error pages k with
              | Some page => page_entries fltr (Z.of_nat k + 1) page
              | None => []
              end)
    (seq 0 (List.length pages)).

(** What one iteration of the outer loop of [extract_toc] appends to
    [result]. *)
Definition page_step (fltr : ToCFilter.t) (numbered : Z * Page.t)
  : result (list ToCEntry.t) :=
  let '(pagenum, page) := numbered in
  entries <-
    flat_mapM
      (fun blk =>
         merge_optional
           (ToCFilter._extract_lines fltr (dict_get (Block.lines blk) []))
           DEF_SEP)
      (dict_get (Page.blocks page) []) ;;
  Ok (map (fun '(title, vpos) =>
             ToCEntry.mk (ToCFilter.level fltr) title pagenum vpos)
          entries).

(** Every span the filter admits has a text. *)
Definition admitted_spans_have_text (fltr : ToCFilter.t)
                                    (pages : list Page.t) : Prop :=
  forall page blk ln spn,
    In page pages ->
    In blk (dict_get (Page.blocks page) []) ->
    In ln (dict_get (Block.lines blk) []) ->
    In spn (dict_get (Line.spans ln) []) ->
    ToCFilter.admits fltr spn = true ->
    Span.text spn <> None.
End WithRe.

(** *** Inputs of the examples *)

(** A span dictionary without any key. *)
Definition no_keys : Span.t := Span.mk None None None None None None.

(** A span dictionary whose only key is [flags]. *)
Definition only_flags (z : Z) : Span.t :=
  Span.mk None None None None (Some z) None.

(** The font tables [{bold: true}] and [{bold: true, italic: false}]. *)
Definition bold_only : FontDict.t :=
  FontDict.mk None None None None None None None None (Some true).

Definition bold_not_italic : FontDict.t :=
  FontDict.mk None None None None None (Some false) None None (Some true).

(** The filter configuration [{level: l}]. *)
Definition level_only (l : Z) : FilterDict.t :=
  FilterDict.mk (Some l) None None.

(** The end-to-end scenario of the specification: the filter
    [{level: 1, font: {name: "Bold", bold: true}, bbox: {}}] and a page of
    one block with two lines. *)
Definition scenario_filter : FilterDict.t :=
  FilterDict.mk
    (Some 1%Z)
    (Some (FontDict.mk (Some "Bold"%string) None None None
                       None None None None (Some true)))
    (Some BBoxDict.empty).

Definition chapter_span : Span.t :=
  Span.mk (Some "Chapter 1"%string) (Some "Bold-Font"%string) None None
          (Some 16%Z) (Some (0, 10, 100, 20)%float).

Definition footnote_span : Span.t :=
  Span.mk (Some "footnote"%string) (Some "Regular"%string) None None
          (Some 0%Z) (Some (0, 50, 50, 60)%float).

Definition intro_span : Span.t :=
  Span.mk (Some "Intro"%string) (Some "Bold-Font"%string) None None
          (Some 16%Z) (Some (0, 11, 100, 21)%float).

Definition scenario_page : Page.t :=
  Page.mk (Some [Block.mk (Some [Line.mk (Some [chapter_span; footnote_span]);
                                 Line.mk (Some [intro_span])])]).

(** The filter object of the scenario with the literal engine. *)
Definition scenario_fltr : ToCFilter.t (re := LiteralRe.engine) :=
  ToCFilter.mk 1
    (FontFilter.mk (re := LiteralRe.engine)
                   "Bold"%string None DEF_TOLERANCE None 16 16)
    (BoundingBoxFilter.mk None None None None DEF_TOLERANCE).

(** A page of one block, one line and the given spans. *)
Definition page_of_spans (spns : list Span.t) : Page.t :=
  Page.mk (Some [Block.mk (Some [Line.mk (Some spns)])]).

(** The example of the docstring of [merge_optional]. *)
Definition docstring_example : list (option (string * float)) :=
  [Some ("1", 1%float); Some ("Section One", 2%float); None;
   Some ("Lorem ipsum", 3%float)]%string.

(** *** Definitions for the further properties *)

(** The span [spn] with [flags] set to [z]. *)
Definition with_flags (spn : Span.t) (z : Z) : Span.t :=
  Span.mk (Span.text spn) (Span.font spn) (Span.size spn) (Span.color spn)
          (Some z) (Span.bbox spn).

(** The spans of a list of lines, in order. *)
Definition spans_of (lines : list Line.t) : list Span.t :=
  flat_map (fun ln => dict_get (Line.spans ln) []) lines.

(** The entry [e] on a page [n] pages further. *)
Definition shift_page (n : nat) (e : ToCEntry.t) : ToCEntry.t :=
  ToCEntry.mk (ToCEntry.level e) (ToCEntry.title e)
              (ToCEntry.pagenum e + Z.of_nat n) (ToCEntry.vpos e).

(** The results of two extractions put one after the other; the first
    exception wins. *)
Definition then_append {A} (r1 r2 : result (list A)) : result (list A) :=
  a <- r1 ;; b <- r2 ;; Ok (a ++ b).

(** [f] applied to what [r] returns. *)
Definition result_map {A B} (f : A -> B) (r : result A) : result B :=
  a <- r ;; Ok (f a).

(** A span dictionary whose only key is [text]. *)
Definition only_text (t : string) : Span.t :=
  Span.mk (Some t) None None None None None.

(** Two pages: a span with a text on the first, a span without any key on
    the second. *)
Definition page_then_no_text : list Page.t :=
  [page_of_spans [only_text "Chapter 1"]; page_of_spans [no_keys]].

(** Two pages for the filter of the scenario: on the first a block that
    ends with a heading and a block that starts with one, on the second a
    block of one heading. *)
Definition two_pages : list Page.t :=
  [Page.mk (Some [Block.mk (Some [Line.mk (Some [chapter_span])]);
                  Block.mk (Some [Line.mk (Some [intro_span; footnote_span]);
                                  Line.mk (Some [chapter_span])])]);
   Page.mk (Some [Block.mk (Some [Line.mk (Some [intro_span])])])].

(** The segments of a list of optional pairs: what lies before the first
    marker, between two markers, after the last one. *)
Fixpoint segments {A} (ls : list (option A)) : list (list A) :=
  match ls with
  | [] => [[]]
  | None :: ls' => [] :: segments ls'
  | Some p :: ls' =>
      match segments ls' with
      | seg :: segs => (p :: seg) :: segs
      | [] => [[p]]
      end
  end.

(** The merge of one segment: nothing for an empty one. *)
Definition merge_segment (sep : string) (seg : list (option string * float))
  : result (list (string * float)) :=
  match seg with
  | [] => Ok []
  | _ => merge_group sep (false, map Some seg)
  end.

(** ** Floats *)

Section SpecFloatOrder.

Ltac sf_compare_cases :=
  unfold SFleb, SFltb, SFcompare;
  change (Pos.compare_cont Eq) with Pos.compare;
  repeat match goal with
         | |- context [Z.compare ?a ?b] => destruct (Z.compare_spec a b)
         | |- context [Pos.compare ?a ?b] => destruct (Pos.compare_spec a b)
         end;
  cbn [CompOpp]; intros;
  try reflexivity; try discriminate; try congruence; try lia.

Lemma SFleb_refl a : a <> S754_nan -> SFleb a a = true.
Proof.
  destruct a as [s|s| |s m e]; try destruct s; intros H;
    try congruence; sf_compare_cases.
Qed.

Lemma SFltb_leb a b : SFltb a b = true -> SFleb a b = true.
Proof.
  unfold SFltb, SFleb. destruct (SFcompare a b) as [[]|]; congruence.
Qed.

Lemma SFltb_false_leb a b :
  a <> S754_nan -> b <> S754_nan -> SFltb a b = false -> SFleb b a = true.
Proof.
  destruct a as [s|s| |s m e], b as [s'|s'| |s' m' e'];
    try destruct s; try destruct s'; intros Ha Hb;
    try congruence; sf_compare_cases.
Qed.

Lemma SFleb_trans a b c :
  SFleb a b = true -> SFleb b c = true -> SFleb a c = true.
Proof.
  destruct a as [s|s| |s m e], b as [s'|s'| |s' m' e'],
           c as [s''|s''| |s'' m'' e''];
    try destruct s; try destruct s'; try destruct s'';
    try (cbn; congruence); sf_compare_cases.
Qed.

End SpecFloatOrder.

Lemma Prim2SF_not_nan (x : float) : is_nan x = false -> Prim2SF x <> S754_nan.
Proof.
  intros H. unfold Prim2SF. rewrite H.
  destruct (is_zero x); [discriminate|].
  destruct (is_infinity x); [discriminate|].
  destruct (Z.frexp x) as [r ex].
  destruct (shr_fexp _ _ _ _ _) as [sh e'].
  destruct (shr_m sh); discriminate.
Qed.

Lemma Prim2SF_finite (x : float) :
  is_finite x = true ->
  (exists s, Prim2SF x = S754_zero s) \/
  (exists s m e, Prim2SF x = S754_finite s m e).
Proof.
  unfold is_finite. intros H.
  apply negb_true_iff, orb_false_iff in H. destruct H as [Hn Hi].
  unfold Prim2SF. rewrite Hn, Hi.
  destruct (is_zero x).
  - left. eauto.
  - destruct (Z.frexp x) as [r ex].
    destruct (shr_fexp _ _ _ _ _) as [sh e'].
    destruct (shr_m sh); [left | right | left]; eauto.
Qed.

(** Subtracting a finite number from itself gives zero. *)
Lemma SF64sub_diag s :
  (exists b, s = S754_zero b) \/ (exists b m e, s = S754_finite b m e) ->
  SF64sub s s = S754_zero false.
Proof.
  intros [[b ->] | [b [m [e ->]]]].
  - destruct b; reflexivity.
  - unfold SF64sub, SFsub. rewrite Z.min_id.
    unfold shl_align. rewrite Z.sub_diag. cbn [fst].
    replace (cond_Zopp b (Zpos m) + cond_Zopp (negb b) (Zpos m))%Z with 0%Z
      by (destruct b; unfold cond_Zopp, negb;
          [rewrite Z.add_opp_diag_l | rewrite Z.add_opp_diag_r]; reflexivity).
    reflexivity.
Qed.

Lemma abs_sub_diag_leb (x t : float) :
  is_finite x = true -> (0 <=? t)%float = true ->
  (abs (x - x) <=? t)%float = true.
Proof.
  intros Hx Ht.
  rewrite leb_spec in *. rewrite abs_spec, sub_spec.
  rewrite (SF64sub_diag (Prim2SF_finite _ Hx)).
  exact Ht.
Qed.

Lemma leb_refl (x : float) : is_nan x = false -> (x <=? x)%float = true.
Proof.
  intros H. rewrite leb_spec. apply SFleb_refl, Prim2SF_not_nan, H.
Qed.

Lemma ltb_leb (x y : float) : (x <? y)%float = true -> (x <=? y)%float = true.
Proof.
  rewrite ltb_spec, leb_spec. apply SFltb_leb.
Qed.

Lemma ltb_false_leb (x y : float) :
  is_nan x = false -> is_nan y = false ->
  (x <? y)%float = false -> (y <=? x)%float = true.
Proof.
  intros Hx Hy. rewrite ltb_spec, leb_spec.
  apply SFltb_false_leb; apply Prim2SF_not_nan; assumption.
Qed.

Lemma leb_trans (x y z : float) :
  (x <=? y)%float = true -> (y <=? z)%float = true -> (x <=? z)%float = true.
Proof.
  rewrite !leb_spec. apply SFleb_trans.
Qed.

(** ** [min] *)

Lemma min_from_In (xs : list float) : forall cur, In (min_from cur xs) (cur :: xs).
Proof.
  induction xs as [|x xs IH]; intros cur; cbn [min_from].
  - left; reflexivity.
  - specialize (IH (if (x <? cur)%float then x else cur)).
    destruct (x <? cur)%float; destruct IH as [<- | IH]; cbn; auto.
Qed.

Lemma min_from_lower_bound (xs : list float) : forall cur,
  (forall v, In v (cur :: xs) -> is_nan v = false) ->
  forall v, In v (cur :: xs) -> (min_from cur xs <=? v)%float = true.
Proof.
  induction xs as [|x xs IH]; intros cur Hnan v Hv; cbn [min_from].
  - destruct Hv as [<- | []]. apply leb_refl, Hnan. left; reflexivity.
  - assert (Hc : is_nan cur = false) by (apply Hnan; left; reflexivity).
    assert (Hx : is_nan x = false) by (apply Hnan; right; left; reflexivity).
    set (cur' := if (x <? cur)%float then x else cur).
    assert (Hcur : (cur' <=? cur)%float = true).
    { subst cur'. destruct (x <? cur)%float eqn:E.
      - apply ltb_leb, E.
      - apply leb_refl, Hc. }
    assert (Hcx : (cur' <=? x)%float = true).
    { subst cur'. destruct (x <? cur)%float eqn:E.
      - apply leb_refl, Hx.
      - apply ltb_false_leb; assumption. }
    assert (Hnan' : forall w, In w (cur' :: xs) -> is_nan w = false).
    { intros w [<- | Hw].
      - subst cur'. destruct (x <? cur)%float; assumption.
      - apply Hnan. right; right; exact Hw. }
    assert (Hm : (min_from cur' xs <=? cur')%float = true)
      by (apply IH; [exact Hnan' | left; reflexivity]).
    destruct Hv as [<- | [<- | Hv]].
    + eapply leb_trans; eassumption.
    + eapply leb_trans; eassumption.
    + apply IH; [exact Hnan' | right; exact Hv].
Qed.

(** On a sequence without NaN, [min] returns a minimum. *)
Lemma py_min_is_minimum (vs : list float) (m : float) :
  py_min vs = Ok m ->
  (forall v, In v vs -> is_nan v = false) ->
  is_minimum m vs.
Proof.
  destruct vs as [|v vs]; cbn [py_min]; [discriminate|].
  intros [= <-] Hnan. split.
  - apply min_from_In.
  - apply min_from_lower_bound, Hnan.
Qed.

(** ** Loops *)

Lemma for_each_flat_mapM {A B} (f : A -> result (list B))
      (body : list B -> A -> result (list B)) (xs : list A) :
  (forall acc x, In x xs -> body acc x = (ys <- f x ;; Ok (acc ++ ys))) ->
  forall acc,
    for_each xs body acc = (ys <- flat_mapM f xs ;; Ok (acc ++ ys)).
Proof.
  induction xs as [|x xs IH]; intros Hbody acc; cbn [for_each flat_mapM].
  - cbn. now rewrite app_nil_r.
  - rewrite Hbody by (left; reflexivity).
    destruct (f x) as [ys|e]; cbn [bind]; [|reflexivity].
    rewrite IH by (intros; apply Hbody; right; assumption).
    destruct (flat_mapM f xs) as [rest|e]; cbn [bind]; [|reflexivity].
    now rewrite app_assoc.
Qed.

Lemma flat_mapM_Ok {A B} (f : A -> result (list B)) (g : A -> list B)
      (xs : list A) :
  (forall x, In x xs -> f x = Ok (g x)) ->
  flat_mapM f xs = Ok (flat_map g xs).
Proof.
  induction xs as [|x xs IH]; intros H; cbn [flat_mapM flat_map].
  - reflexivity.
  - rewrite H by (left; reflexivity).
    rewrite IH by (intros; apply H; right; assumption).
    reflexivity.
Qed.

Lemma flat_map_ext_In {A B} (f g : A -> list B) (xs : list A) :
  (forall x, In x xs -> f x = g x) -> flat_map f xs = flat_map g xs.
Proof.
  induction xs as [|x xs IH]; intros H; [reflexivity|].
  cbn [flat_map]. rewrite (H x) by (left; reflexivity).
  rewrite IH by (intros; apply H; right; assumption). reflexivity.
Qed.

Lemma flat_mapM_Ok_inv {A B} (f : A -> result (list B)) (xs : list A) out :
  flat_mapM f xs = Ok out ->
  exists g, (forall x, In x xs -> f x = Ok (g x)) /\ out = flat_map g xs.
Proof.
  revert out. induction xs as [|x xs IH]; intros out; cbn [flat_mapM].
  - intros [= <-]. exists (fun _ => []). split; [intros _ [] | reflexivity].
  - destruct (f x) as [ys|e] eqn:Ex; cbn [bind]; [|discriminate].
    destruct (flat_mapM f xs) as [rest|e]; cbn [bind]; [|discriminate].
    intros [= <-]. destruct (IH rest eq_refl) as (g & Hg & ->).
    exists (fun y => match f y with Ok zs => zs | Raise _ => [] end).
    split.
    + intros y [<- | Hy]; [now rewrite Ex|].
      rewrite (Hg y Hy). reflexivity.
    + cbn [flat_map]. rewrite Ex. f_equal.
      apply flat_map_ext_In. intros y Hy. now rewrite (Hg y Hy).
Qed.

(** An exception in one element is the exception of the whole, when the
    elements before it raise none. *)
Lemma flat_mapM_Raise {A B} (f : A -> result (list B)) (xs : list A) x :
  In x xs -> (exists e, f x = Raise e) -> exists e, flat_mapM f xs = Raise e.
Proof.
  induction xs as [|y xs IH]; intros Hin Hx; [contradiction|].
  cbn [flat_mapM].
  destruct (f y) as [ys|e] eqn:Ey; cbn [bind]; [|eauto].
  destruct Hin as [-> | Hin].
  - destruct Hx as [e He]. congruence.
  - destruct (IH Hin Hx) as [e ->]. cbn. eauto.
Qed.

Lemma flat_mapM_Raise_inv {A B} (f : A -> result (list B)) (xs : list A) e :
  flat_mapM f xs = Raise e -> exists x, In x xs /\ f x = Raise e.
Proof.
  induction xs as [|x xs IH]; cbn [flat_mapM]; [discriminate|].
  destruct (f x) as [ys|e'] eqn:Ex; cbn [bind].
  - destruct (flat_mapM f xs) as [rest|e'']; cbn [bind]; [discriminate|].
    intros [= <-]. destruct (IH eq_refl) as (y & Hy & Hfy).
    exists y. split; [right; exact Hy | exact Hfy].
  - intros [= <-]. exists x. split; [left; reflexivity | exact Ex].
Qed.

(** ** [groupby] *)

(** Every element is in a group that carries its key. *)
Lemma groupby_In {A} (key : A -> bool) (ls : list A) x :
  In x ls -> exists grp, In (key x, grp) (groupby key ls) /\ In x grp.
Proof.
  induction ls as [|y ls IH]; intros Hin; [contradiction|].
  cbn [groupby].
  destruct (groupby key ls) as [|[k g] gs].
  - destruct Hin as [-> | Hin].
    + exists [x]. split; left; reflexivity.
    + destruct (IH Hin) as (grp & [] & _).
  - destruct (Bool.eqb (key y) k) eqn:E.
    + apply Bool.eqb_prop in E. destruct Hin as [-> | Hin].
      * exists (x :: g). rewrite E. split; left; reflexivity.
      * destruct (IH Hin) as (grp & [[= Hk <-] | Hgs] & Hx).
        -- exists (y :: g). rewrite <- Hk. split; [left | right]; auto.
        -- exists grp. split; [right; exact Hgs | exact Hx].
    + destruct Hin as [-> | Hin].
      * exists [x]. split; left; reflexivity.
      * destruct (IH Hin) as (grp & Hgrp & Hx).
        exists grp. split; [right; exact Hgrp | exact Hx].
Qed.

(** Every group is non-empty and made of elements of its key. *)
Lemma groupby_groups {A} (key : A -> bool) (ls : list A) :
  Forall (fun g => snd g <> [] /\ Forall (fun x => key x = fst g) (snd g))
         (groupby key ls).
Proof.
  induction ls as [|y ls IH]; cbn [groupby]; [constructor|].
  destruct (groupby key ls) as [|[k g] gs].
  - constructor; [|constructor]. cbn. split; [discriminate | auto].
  - inversion IH as [|? ? [Hne Hall] Hgs]; subst. cbn [fst snd] in *.
    destruct (Bool.eqb (key y) k) eqn:E.
    + apply Bool.eqb_prop in E. constructor; [|exact Hgs].
      cbn [fst snd]. split; [discriminate | auto].
    + constructor; [|exact IH]. cbn. split; [discriminate | auto].
Qed.


Lemma groupby_run {A} (key : A -> bool) (k : bool) (xs ys : list A) :
  xs <> [] ->
  Forall (fun x => key x = k) xs ->
  match groupby key ys with
  | [] => True
  | (k', _) :: _ => k' <> k
  end ->
  groupby key (xs ++ ys) = (k, xs) :: groupby key ys.
Proof.
  induction xs as [|x xs IH]; intros Hne Hall Hys; [congruence|].
  inversion Hall as [|? ? Hx Hxs]; subst.
  destruct xs as [|x' xs].
  - cbn [app groupby].
    destruct (groupby key ys) as [|[k' g] gs]; [reflexivity|].
    destruct (Bool.eqb (key x) k') eqn:E; [|reflexivity].
    apply Bool.eqb_prop in E. congruence.
  - change ((x :: x' :: xs) ++ ys) with (x :: ((x' :: xs) ++ ys)).
    cbn [groupby]. rewrite IH by (assumption || discriminate).
    inversion Hxs; subst.
    now rewrite Bool.eqb_reflx.
Qed.

(** The groups of a list are the runs of any of its partitions into maximal
    runs. *)
Lemma groupby_partition (ls : list (option (string * float))) (rs : list run) :
  is_run_partition ls rs ->
  groupby is_None (with_text ls) =
  map (fun r => (is_markers r, with_text (run_items r))) rs.
Proof.
  intros (Hcat & Hne & Halt). subst ls.
  induction rs as [|r rs IH]; [reflexivity|].
  inversion Hne as [|? ? Hr Hrs]; subst.
  assert (Halt' : alternating rs) by (destruct rs; [exact I | apply Halt]).
  specialize (IH Hrs Halt').
  cbn [map List.concat]. unfold with_text at 1. rewrite map_app.
  fold (with_text (run_items r)) (with_text (List.concat (map run_items rs))).
  rewrite groupby_run with (k := is_markers r).
  - now rewrite IH.
  - unfold run_nonempty in Hr. unfold with_text.
    destruct (run_items r); [congruence | discriminate].
  - unfold with_text. apply Forall_map.
    destruct r as [n|ps]; cbn [run_items is_markers].
    + apply Forall_forall. intros x Hx. apply repeat_spec in Hx. now subst.
    + apply Forall_map, Forall_forall. reflexivity.
  - rewrite IH. destruct rs as [|r2 rs]; [exact I|].
    cbn [map]. intros E. destruct Halt as [Hd _]. congruence.
Qed.

Lemma runs_of_partition (ls : list (option (string * float))) :
  is_run_partition ls (runs_of ls).
Proof.
  induction ls as [|x ls (Hcat & Hne & Halt)].
  - repeat split; constructor.
  - unfold is_run_partition.
    destruct x as [p|]; cbn [runs_of];
      destruct (runs_of ls) as [|[n|ps] rs]; cbn in Hcat; subst ls;
      (split; [reflexivity|]); split.
    all: try (constructor; [discriminate|];
              first [assumption | now inversion Hne | constructor]).
    all: first [ exact I
               | split; [discriminate | assumption]
               | destruct rs; [exact I | apply Halt] ].
Qed.

(** ** [merge_optional] *)

Lemma merge_optional_flat_mapM ls sep :
  merge_optional ls sep = flat_mapM (merge_group sep) (groupby is_None ls).
Proof.
  unfold merge_optional.
  rewrite for_each_flat_mapM with (f := merge_group sep).
  - destruct (flat_mapM _ _); reflexivity.
  - intros acc [nothing grp] _. unfold merge_group.
    destruct nothing; cbn [negb bind].
    + now rewrite app_nil_r.
    + destruct (unpack_zip_star grp) as [[strs vtops]|e]; cbn [bind]; [|reflexivity].
      destruct (str_join sep strs) as [joined|e]; cbn [bind]; [|reflexivity].
      destruct (py_min vtops) as [top|e]; reflexivity.
Qed.

Lemma zip_star_with_text (ps : list (string * float)) :
  zip_star (with_text (map Some ps)) =
  Ok (map (fun p => Some (fst p)) ps, map snd ps).
Proof.
  induction ps as [|[t v] ps IH]; [reflexivity|].
  cbn [map with_text option_map zip_star fst snd] in *.
  unfold with_text in IH. now rewrite IH.
Qed.

Lemma str_items_Some (ts : list string) : forall i,
  str_items i (map Some ts) = Ok ts.
Proof.
  induction ts as [|t ts IH]; intros i; [reflexivity|].
  cbn [map str_items]. now rewrite IH.
Qed.

Lemma merge_group_values sep (ps : list (string * float)) :
  ps <> [] ->
  exists m,
    py_min (map snd ps) = Ok m /\
    merge_group sep (false, with_text (run_items (Values ps))) =
    Ok [(String.concat sep (map fst ps), m)].
Proof.
  intros Hne. destruct ps as [|p ps]; [congruence|].
  exists (min_from (snd p) (map snd ps)). split; [reflexivity|].
  unfold merge_group, unpack_zip_star. cbn [negb run_items].
  rewrite zip_star_with_text.
  cbn [with_text map option_map bind]. unfold str_join.
  rewrite <- map_map with (f := fst) (g := Some).
  change (Some (fst p) :: map Some (map fst ps))
    with (map Some (map fst (p :: ps))).
  rewrite str_items_Some. reflexivity.
Qed.

(** On a list whose texts are all strings, [merge_optional] returns one
    merged pair per value run of any partition into maximal runs, in
    order. *)
Lemma merge_optional_partition sep ls rs :
  is_run_partition ls rs ->
  exists out,
    merge_optional (with_text ls) sep = Ok out /\
    Forall2 (merges_run sep) (value_runs rs) out.
Proof.
  intros Hp. rewrite merge_optional_flat_mapM, (groupby_partition Hp).
  destruct Hp as (_ & Hne & _). clear ls.
  induction rs as [|r rs IH].
  - exists []. split; [reflexivity | constructor].
  - inversion Hne as [|? ? Hr Hrs]; subst.
    destruct (IH Hrs) as (out & Hout & Hruns).
    cbn [map flat_mapM]. rewrite Hout.
    destruct r as [n|ps]; cbn [is_markers].
    + exists out. split; [reflexivity | exact Hruns].
    + assert (Hps : ps <> [])
        by (intros ->; apply Hr; reflexivity).
      destruct (merge_group_values sep Hps) as (m & Hm & ->).
      exists ((String.concat sep (map fst ps), m) :: out).
      split; [reflexivity|].
      cbn [value_runs flat_map app]. constructor; [|exact Hruns].
      split; [reflexivity | split; [exact Hm|]].
      intros Hnan. apply py_min_is_minimum; assumption.
Qed.

(** A list of items in which every present pair has a text. *)
Lemma items_with_text (ls : list (option (option string * float))) :
  (forall v, ~ In (Some (None, v)) ls) ->
  exists ls', ls = with_text ls'.
Proof.
  induction ls as [|x ls IH]; intros H.
  - exists []. reflexivity.
  - destruct IH as [ls' ->].
    { intros v Hv. apply (H v). right; exact Hv. }
    destruct x as [[[t|] v]|].
    + exists (Some (t, v) :: ls'). reflexivity.
    + exfalso. apply (H v). left; reflexivity.
    + exists (None :: ls'). reflexivity.
Qed.

Lemma merge_optional_Ok sep (ls : list (option (option string * float))) :
  (forall v, ~ In (Some (None, v)) ls) ->
  exists out, merge_optional ls sep = Ok out.
Proof.
  intros H. destruct (items_with_text ls H) as [ls' ->].
  destruct (merge_optional_partition sep (runs_of_partition ls'))
    as (out & Hout & _).
  eauto.
Qed.

(** *** When [merge_optional] raises *)

Lemma zip_star_In {A B} (grp : list (option (A * B))) strs vtops a b :
  zip_star grp = Ok (strs, vtops) -> In (Some (a, b)) grp -> In a strs.
Proof.
  revert strs vtops. induction grp as [|[[a' b']|] grp IH];
    intros strs vtops; cbn [zip_star]; try discriminate.
  - intros _ [].
  - destruct (zip_star grp) as [[xs ys]|e]; cbn [bind]; [|discriminate].
    intros [= <- <-] [[= -> ->] | Hin]; [left; reflexivity|].
    right. eapply IH; [reflexivity | exact Hin].
Qed.

Lemma str_items_None (items : list (option string)) : forall i,
  In None items -> exists j, str_items i items = Raise (JoinTypeError j).
Proof.
  induction items as [|[s|] items IH]; intros i Hin; cbn [str_items].
  - contradiction.
  - destruct Hin as [Hs | Hin]; [discriminate|].
    destruct (IH (S i) Hin) as [j ->]. cbn. eauto.
  - eauto.
Qed.

Lemma zip_star_present {A B} (grp : list (option (A * B))) :
  Forall (fun x => is_None x = false) grp ->
  exists strs vtops,
    zip_star grp = Ok (strs, vtops) /\ List.length vtops = List.length grp.
Proof.
  induction 1 as [|[[a b]|] grp Hx _ IH]; cbn [zip_star].
  - exists [], []. auto.
  - destruct IH as (strs & vtops & -> & Hlen). cbn [bind].
    exists (a :: strs), (b :: vtops). cbn. auto.
  - discriminate.
Qed.

(** The only exception of an iteration over a group of [groupby] is the
    [TypeError] of [join]. *)
Lemma merge_group_exn sep nothing grp e :
  grp <> [] ->
  Forall (fun x => is_None x = nothing) grp ->
  merge_group sep (nothing, grp) = Raise e ->
  exists i, e = JoinTypeError i.
Proof.
  intros Hne Hall. unfold merge_group.
  destruct nothing; cbn [negb]; [discriminate|].
  destruct (zip_star_present Hall) as (strs & vtops & Hzip & Hlen).
  unfold unpack_zip_star. destruct grp as [|x grp]; [congruence|].
  rewrite Hzip. cbn [bind]. unfold str_join.
  destruct (str_items 0 strs) as [ss|e'] eqn:Es; cbn [bind].
  - destruct vtops as [|v vtops]; [discriminate Hlen|]. discriminate.
  - intros [= <-]. clear - Es.
    assert (Hgen : forall items i e0,
               str_items i items = Raise e0 -> exists j, e0 = JoinTypeError j).
    { induction items as [|[s|] items IH]; intros i e0; cbn [str_items].
      - discriminate.
      - destruct (str_items (S i) items) eqn:E; cbn [bind]; [discriminate|].
        intros [= <-]. eapply IH, E.
      - intros [= <-]. eauto. }
    eapply Hgen, Es.
Qed.

Lemma merge_optional_exn sep ls e :
  merge_optional ls sep = Raise e -> exists i, e = JoinTypeError i.
Proof.
  rewrite merge_optional_flat_mapM. intros H.
  apply flat_mapM_Raise_inv in H. destruct H as ([nothing grp] & Hin & He).
  pose proof (groupby_groups is_None ls) as Hgroups.
  rewrite Forall_forall in Hgroups.
  destruct (Hgroups _ Hin) as [Hne Hall].
  eapply merge_group_exn; eassumption.
Qed.

(** A present pair without text makes [merge_optional] raise. *)
Lemma merge_optional_raises sep ls v :
  In (Some (None, v)) ls -> exists i, merge_optional ls sep = Raise (JoinTypeError i).
Proof.
  intros Hin.
  assert (H : exists e, merge_optional ls sep = Raise e).
  { rewrite merge_optional_flat_mapM.
    destruct (groupby_In is_None ls _ Hin) as (grp & Hgrp & Hx).
    apply flat_mapM_Raise with (x := (false, grp)); [exact Hgrp|].
    unfold merge_group, unpack_zip_star. cbn [negb].
    destruct grp as [|y grp]; [contradiction|].
    destruct (zip_star (y :: grp)) as [[strs vtops]|e] eqn:Ez; cbn [bind];
      [|eauto].
    unfold str_join.
    assert (Hnone : In None strs) by (eapply zip_star_In; eassumption).
    destruct (str_items_None strs 0 Hnone) as [j ->].
    cbn. eauto. }
  destruct H as [e He]. destruct (merge_optional_exn _ _ He) as [i ->]. eauto.
Qed.

(** ** Style flags *)

Lemma pack_bits b0 b1 b2 b3 b4 :
  Z.testbit (pack b0 b1 b2 b3 b4) 0 = b0 /\
  Z.testbit (pack b0 b1 b2 b3 b4) 1 = b1 /\
  Z.testbit (pack b0 b1 b2 b3 b4) 2 = b2 /\
  Z.testbit (pack b0 b1 b2 b3 b4) 3 = b3 /\
  Z.testbit (pack b0 b1 b2 b3 b4) 4 = b4 /\
  (0 <= pack b0 b1 b2 b3 b4 < 32)%Z.
Proof.
  destruct b0, b1, b2, b3, b4; cbv; intuition congruence.
Qed.

Lemma pack_high_bits b0 b1 b2 b3 b4 n :
  (5 <= n)%Z -> Z.testbit (pack b0 b1 b2 b3 b4) n = false.
Proof.
  intros Hn.
  destruct (pack_bits b0 b1 b2 b3 b4) as (_ & _ & _ & _ & _ & Hlo & Hhi).
  apply Z.testbit_false; [lia|].
  rewrite Z.div_small; [reflexivity|].
  split; [exact Hlo|].
  apply Z.lt_le_trans with (2 ^ 5)%Z; [exact Hhi|].
  apply Z.pow_le_mono_r; lia.
Qed.

(** A word has no bit in common with a packed mask exactly when it is clear
    at the positions the mask sets. *)
Lemma land_pack_zero x b0 b1 b2 b3 b4 :
  Z.land x (pack b0 b1 b2 b3 b4) = 0%Z <->
  (b0 = true -> Z.testbit x 0 = false) /\
  (b1 = true -> Z.testbit x 1 = false) /\
  (b2 = true -> Z.testbit x 2 = false) /\
  (b3 = true -> Z.testbit x 3 = false) /\
  (b4 = true -> Z.testbit x 4 = false).
Proof.
  destruct (pack_bits b0 b1 b2 b3 b4) as (H0 & H1 & H2 & H3 & H4 & _).
  split.
  - intros Hz.
    assert (Hbit : forall n,
               Z.testbit x n && Z.testbit (pack b0 b1 b2 b3 b4) n = false).
    { intros n. rewrite <- Z.land_spec, Hz. apply Z.bits_0. }
    pose proof (Hbit 0%Z) as G0. pose proof (Hbit 1%Z) as G1.
    pose proof (Hbit 2%Z) as G2. pose proof (Hbit 3%Z) as G3.
    pose proof (Hbit 4%Z) as G4.
    rewrite H0 in G0. rewrite H1 in G1. rewrite H2 in G2.
    rewrite H3 in G3. rewrite H4 in G4.
    repeat split; intros ->; rewrite andb_true_r in *; assumption.
  - intros (G0 & G1 & G2 & G3 & G4).
    apply Z.bits_inj'. intros n Hn.
    rewrite Z.land_spec, Z.bits_0.
    destruct (Z.le_gt_cases 5 n) as [Hhigh|Hlow].
    + rewrite pack_high_bits by exact Hhigh. apply andb_false_r.
    + assert (Hcase : (n = 0 \/ n = 1 \/ n = 2 \/ n = 3 \/ n = 4)%Z) by lia.
      destruct Hcase as [-> | [-> | [-> | [-> | ->]]]].
      * rewrite H0. destruct b0; [now rewrite G0 | apply andb_false_r].
      * rewrite H1. destruct b1; [now rewrite G1 | apply andb_false_r].
      * rewrite H2. destruct b2; [now rewrite G2 | apply andb_false_r].
      * rewrite H3. destruct b3; [now rewrite G3 | apply andb_false_r].
      * rewrite H4. destruct b4; [now rewrite G4 | apply andb_false_r].
Qed.

Section FontFilterFacts.
Context {re : ReEngine}.

(** The fields [FontFilter.init] computes. *)
Lemma init_fields (fd : FontDict.t) (f : FontFilter.t) :
  FontFilter.init fd = Ok f ->
  re_compile (dict_get (FontDict.name fd) ""%string) = Ok (FontFilter.name f) /\
  FontFilter.size f = FontDict.size fd /\
  FontFilter.color f = FontDict.color fd /\
  FontFilter.flags f =
    pack (dict_get (constraint_of fd superscript) false)
         (dict_get (constraint_of fd italic) false)
         (dict_get (constraint_of fd serif) false)
         (dict_get (constraint_of fd monospace) false)
         (dict_get (constraint_of fd bold) false) /\
  FontFilter.ign_mask f =
    pack (dict_has (constraint_of fd superscript))
         (dict_has (constraint_of fd italic))
         (dict_has (constraint_of fd serif))
         (dict_has (constraint_of fd monospace))
         (dict_has (constraint_of fd bold)).
Proof.
  unfold FontFilter.init.
  destruct (re_compile _) as [p|]; [|discriminate].
  intros [= <-]. repeat split.
Qed.

(** [FontFilter.admits] is the three first checks and the masked
    comparison. *)
Lemma admits_unfold (f : FontFilter.t) (spn : Span.t) :
  FontFilter.admits f spn =
  passes_before_flags f spn &&
  (Z.land (Z.lxor (dict_get (Span.flags spn) (Z.lnot (FontFilter.flags f)))
                  (FontFilter.flags f))
          (FontFilter.ign_mask f) =? 0)%Z.
Proof.
  unfold FontFilter.admits, passes_before_flags.
  destruct (re_search _ _); cbn [negb andb]; [|reflexivity].
  destruct (FontFilter.color_differs _ _); cbn [negb andb]; [reflexivity|].
  destruct (admits_float _ _ _); reflexivity.
Qed.

(** The masked comparison on a span that has [flags]: every constrained
    flag equals the bit of the span. *)
Lemma masked_flags_present (fd : FontDict.t) (f : FontFilter.t) (z : Z) :
  FontFilter.init fd = Ok f ->
  ((Z.land (Z.lxor z (FontFilter.flags f)) (FontFilter.ign_mask f) =? 0)%Z
     = true <->
   forall s b, constraint_of fd s = Some b -> Z.testbit z (bit_of s) = b).
Proof.
  intros Hinit.
  destruct (init_fields _ Hinit) as (_ & _ & _ & -> & ->).
  rewrite Z.eqb_eq, land_pack_zero.
  rewrite !Z.lxor_spec.
  match goal with
  | |- context [pack ?a0 ?a1 ?a2 ?a3 ?a4] =>
      destruct (pack_bits a0 a1 a2 a3 a4) as (-> & -> & -> & -> & -> & _)
  end.
  split.
  - intros (G0 & G1 & G2 & G3 & G4) s b Hs.
    destruct s; cbn [bit_of]; rewrite Hs in *; cbn [dict_has dict_get] in *;
      match goal with
      | G : true = true -> xorb _ b = false |- _ =>
          specialize (G eq_refl); apply xorb_eq in G; exact G
      end.
  - intros H. repeat split; intros Hh.
    all: match goal with
         | Hh : dict_has (constraint_of ?d ?s) = true |- _ =>
             destruct (constraint_of d s) as [b|] eqn:E;
             [ cbn [dict_get]; pose proof (H s b E) as Hb;
               cbn [bit_of] in Hb; rewrite Hb; apply xorb_nilpotent
             | discriminate ]
         end.
Qed.

(** The masked comparison on a span without [flags]: it passes only when no
    flag is constrained. *)
Lemma masked_flags_missing (fd : FontDict.t) (f : FontFilter.t) :
  FontFilter.init fd = Ok f ->
  ((Z.land (Z.lxor (Z.lnot (FontFilter.flags f)) (FontFilter.flags f))
           (FontFilter.ign_mask f) =? 0)%Z = true <->
   forall s, constraint_of fd s = None).
Proof.
  intros Hinit.
  destruct (init_fields _ Hinit) as (_ & _ & _ & _ & ->).
  rewrite Z.eqb_eq, land_pack_zero.
  rewrite !Z.lxor_spec, !Z.lnot_spec by lia.
  split.
  - intros (G0 & G1 & G2 & G3 & G4) s.
    destruct s;
      match goal with |- ?c = None => destruct c as [b|] eqn:E end;
      try reflexivity; cbn [dict_has] in *; exfalso;
      match goal with
      | G : true = true -> xorb (negb ?t) ?t = false |- _ =>
          specialize (G eq_refl); destruct t; discriminate G
      end.
  - intros H. rewrite !H. cbn [dict_has]. repeat split; discriminate.
Qed.

End FontFilterFacts.

(** ** The literal engine *)

Lemma literal_search_empty (s : string) : LiteralRe.search "" s = true.
Proof. destruct s; reflexivity. Qed.

Lemma literal_empty_pattern :
  empty_pattern_matches_all (re := LiteralRe.engine).
Proof.
  exists ""%string. split; [reflexivity | exact literal_search_empty].
Qed.

(** ** Properties of [admits_float] *)

(** C7 (amended): [admits_float expect actual t] is true if and only if
    [expect] is absent, or [actual] is present and
    [abs (expect - actual) <= t] in binary64 arithmetic.  Consequently it
    is true of [(a, a, t)] for every finite [a] and every [t >= 0], and of
    [(None, actual, t)] for every [actual] and [t]. *)
Theorem admits_float_spec (expect actual : option float) (t : float) :
  (admits_float expect actual t = true <->
   expect = None \/
   exists e a, expect = Some e /\ actual = Some a /\
               (abs (e - a) <=? t)%float = true) /\
  (forall a, is_finite a = true -> (0 <=? t)%float = true ->
             admits_float (Some a) (Some a) t = true) /\
  admits_float None actual t = true.
Proof.
  split; [|split].
  - destruct expect as [e|], actual as [a|]; cbn [admits_float]; split.
    + intros H. right. exists e, a. auto.
    + intros [H | (e' & a' & [= ->] & [= ->] & H)]; [discriminate | exact H].
    + discriminate.
    + intros [H | (e' & a' & _ & H & _)]; discriminate.
    + auto.
    + reflexivity.
    + auto.
    + reflexivity.
  - intros a Ha Ht. cbn [admits_float]. apply abs_sub_diag_leb; assumption.
  - reflexivity.
Qed.

Lemma admits_float_spec_witness :
  admits_float (Some 12%float) (Some 12%float) DEF_TOLERANCE = true.
Proof.
  exact (proj1 (proj2 (admits_float_spec None None DEF_TOLERANCE))
               12%float eq_refl eq_refl).
Defined.

(** C7, as stated, fails for the floats that are not finite: the difference
    of an infinity with itself is NaN, and so is that of NaN, and no
    comparison with NaN holds. *)
Lemma admits_float_not_reflexive :
  (0 <=? 0)%float = true /\
  admits_float (Some infinity) (Some infinity) 0%float = false /\
  admits_float (Some nan) (Some nan) 0%float = false.
Proof. repeat split. Qed.

(** ** Properties of [FontFilter] *)

(** C1 (amended): for a span without [flags], [FontFilter.admits] is true
    exactly when the name, colour and size checks pass and the predicate
    constrains no style flag: the default, the complement of the expected
    flags, differs from them at every bit, so one constrained flag is enough
    to reject the span. *)
Theorem admits_missing_flags {re : ReEngine}
    (fd : FontDict.t) (f : FontFilter.t) (spn : Span.t) :
  FontFilter.init fd = Ok f ->
  Span.flags spn = None ->
  (FontFilter.admits f spn = true <->
   passes_before_flags f spn = true /\ forall s, constraint_of fd s = None).
Proof.
  intros Hinit Hflags.
  rewrite admits_unfold, Hflags, andb_true_iff. cbn [dict_get].
  now rewrite (masked_flags_missing _ Hinit).
Qed.

Lemma admits_missing_flags_witness :
  FontFilter.admits (re := LiteralRe.engine)
    (FontFilter.mk (re := LiteralRe.engine)
                   ""%string None DEF_TOLERANCE None 0 0) no_keys = true <->
  passes_before_flags (re := LiteralRe.engine)
    (FontFilter.mk (re := LiteralRe.engine)
                   ""%string None DEF_TOLERANCE None 0 0) no_keys = true /\
  forall s, constraint_of FontDict.empty s = None.
Proof.
  exact (admits_missing_flags (re := LiteralRe.engine) FontDict.empty
                              no_keys eq_refl eq_refl).
Defined.

(** C1, as stated, fails: the predicate [{bold: true}] rejects the span
    without any key, whose name, colour and size checks all pass. *)
Lemma missing_flags_rejected :
  exists f,
    FontFilter.init (re := LiteralRe.engine) bold_only = Ok f /\
    Span.flags no_keys = None /\
    passes_before_flags f no_keys = true /\
    FontFilter.admits f no_keys = false.
Proof. eexists. repeat split. Qed.

(** C6: for a span that has [flags], [FontFilter.admits] is true exactly
    when the name, colour and size checks pass and every style flag the
    configuration constrains equals the bit of the span; the flags it does
    not constrain play no part.  In particular [{bold: true}] admits a span
    with flags [{bold, italic}] and [{bold: true, italic: false}] rejects
    it. *)
Theorem masked_flags_truth_table {re : ReEngine} :
  (forall (fd : FontDict.t) (f : FontFilter.t) (spn : Span.t) (z : Z),
     FontFilter.init fd = Ok f ->
     Span.flags spn = Some z ->
     (FontFilter.admits f spn = true <->
      passes_before_flags f spn = true /\
      forall s b, constraint_of fd s = Some b -> Z.testbit z (bit_of s) = b)) /\
  (empty_pattern_matches_all ->
   exists f1 f2,
     FontFilter.init bold_only = Ok f1 /\
     FontFilter.init bold_not_italic = Ok f2 /\
     FontFilter.admits f1 (only_flags 18) = true /\
     FontFilter.admits f2 (only_flags 18) = false).
Proof.
  assert (Hgen : forall fd f spn z,
             FontFilter.init fd = Ok f ->
             Span.flags spn = Some z ->
             (FontFilter.admits f spn = true <->
              passes_before_flags f spn = true /\
              forall s b, constraint_of fd s = Some b ->
                          Z.testbit z (bit_of s) = b)).
  { intros fd f spn z Hinit Hflags.
    rewrite admits_unfold, Hflags, andb_true_iff. cbn [dict_get].
    now rewrite (masked_flags_present _ z Hinit). }
  split; [exact Hgen|].
  intros (p & Hc & Hs).
  assert (H1 : exists f1, FontFilter.init bold_only = Ok f1 /\
                          FontFilter.name f1 = p /\
                          FontFilter.color f1 = None /\
                          FontFilter.size f1 = None).
  { unfold FontFilter.init, bold_only. cbn [FontDict.name dict_get].
    rewrite Hc. eexists. repeat split. }
  assert (H2 : exists f2, FontFilter.init bold_not_italic = Ok f2).
  { unfold FontFilter.init, bold_not_italic. cbn [FontDict.name dict_get].
    rewrite Hc. eexists. reflexivity. }
  destruct H1 as (f1 & Hf1 & Hn1 & Hc1 & Hz1), H2 as (f2 & Hf2).
  exists f1, f2. repeat split; try assumption.
  - apply (Hgen bold_only f1 (only_flags 18) 18%Z Hf1 eq_refl). split.
    + unfold passes_before_flags. rewrite Hn1, Hc1, Hz1, Hs. reflexivity.
    + intros [] b [= <-]. reflexivity.
  - destruct (FontFilter.admits f2 (only_flags 18)) eqn:E; [|reflexivity].
    apply (Hgen bold_not_italic f2 (only_flags 18) 18%Z Hf2 eq_refl) in E.
    destruct E as [_ E]. specialize (E italic false eq_refl). discriminate E.
Qed.

Lemma masked_flags_truth_table_witness :
  exists f1 f2 : FontFilter.t (re := LiteralRe.engine),
    FontFilter.init bold_only = Ok f1 /\
    FontFilter.init bold_not_italic = Ok f2 /\
    FontFilter.admits f1 (only_flags 18) = true /\
    FontFilter.admits f2 (only_flags 18) = false.
Proof.
  exact (proj2 (masked_flags_truth_table (re := LiteralRe.engine))
               literal_empty_pattern).
Defined.

(** C9: the predicate built from the empty font table admits every span,
    whatever its keys, for every regular-expression engine in which the
    empty pattern matches every string. *)
Theorem empty_font_filter_admits_all {re : ReEngine} :
  empty_pattern_matches_all ->
  exists f,
    FontFilter.init FontDict.empty = Ok f /\
    forall spn, FontFilter.admits f spn = true.
Proof.
  intros (p & Hc & Hs).
  unfold FontFilter.init. cbn [FontDict.empty FontDict.name dict_get].
  rewrite Hc. eexists. split; [reflexivity|].
  intros spn. rewrite admits_unfold. unfold passes_before_flags.
  cbn [FontFilter.name FontFilter.color FontFilter.size FontFilter.ign_mask
       FontDict.color FontDict.size FontDict.superscript FontDict.italic
       FontDict.serif FontDict.monospace FontDict.bold dict_has
       FontFilter.color_differs admits_float negb].
  rewrite Hs. cbn [andb]. now rewrite Z.land_0_r.
Qed.

Lemma empty_font_filter_admits_all_witness :
  exists f,
    FontFilter.init (re := LiteralRe.engine) FontDict.empty = Ok f /\
    forall spn, FontFilter.admits f spn = true.
Proof.
  exact (empty_font_filter_admits_all (re := LiteralRe.engine)
           literal_empty_pattern).
Defined.

(** ** Properties of [merge_optional] *)

Lemma merge_optional_single sep (ps : list (string * float)) :
  ps <> [] ->
  exists m,
    merge_optional (with_text (map Some ps)) sep =
      Ok [(String.concat sep (map fst ps), m)] /\
    py_min (map snd ps) = Ok m /\
    (nan_free ps -> is_minimum m (map snd ps)).
Proof.
  intros Hne.
  assert (Hp : is_run_partition (map Some ps) [Values ps]).
  { repeat split.
    - cbn. now rewrite app_nil_r.
    - constructor; [|constructor].
      unfold run_nonempty. cbn. destruct ps; [congruence | discriminate]. }
  destruct (merge_optional_partition sep Hp) as (out & Hout & Hruns).
  cbn in Hruns. inversion Hruns as [|? [t m] ? ? (Ht & Hm & Hmin) Hnil]; subst.
  inversion Hnil; subst. cbn [fst snd] in *. subst t.
  exists m. auto.
Qed.

Lemma merge_optional_markers sep n :
  merge_optional (repeat None n) sep = Ok [].
Proof.
  destruct n as [|n]; [reflexivity|].
  assert (Hp : is_run_partition (repeat None (S n)) [Markers (S n)]).
  { repeat split.
    - cbn. now rewrite app_nil_r.
    - constructor; [discriminate | constructor]. }
  destruct (merge_optional_partition sep Hp) as (out & Hout & Hruns).
  cbn in Hruns. inversion Hruns; subst.
  unfold with_text in Hout. rewrite map_repeat in Hout. exact Hout.
Qed.

(** C3 (amended): a list of optional (text, vpos) pairs has a partition into
    maximal contiguous runs of markers and of present pairs, and for every
    such partition [merge_optional] returns, in the original order, exactly
    one pair per value run: its text is the separator-join of the texts of
    the run in order, its vpos is what [min] returns on the positions of
    the run, which is their minimum when none of them is NaN.  Marker runs
    produce nothing.  The empty list and the lists of markers give the
    empty list, a non-empty list without marker gives a single pair, and
    the example of the docstring gives its two pairs. *)
Theorem merge_optional_runs (sep : string)
    (ls : list (option (string * float))) :
  (exists rs, is_run_partition ls rs) /\
  (forall rs, is_run_partition ls rs ->
     exists out,
       merge_optional (with_text ls) sep = Ok out /\
       Forall2 (merges_run sep) (value_runs rs) out) /\
  merge_optional [] sep = Ok [] /\
  (forall n, merge_optional (repeat None n) sep = Ok []) /\
  (forall ps, ps <> [] ->
     exists m,
       merge_optional (with_text (map Some ps)) sep =
         Ok [(String.concat sep (map fst ps), m)] /\
       py_min (map snd ps) = Ok m /\
       (nan_free ps -> is_minimum m (map snd ps))) /\
  merge_optional (with_text docstring_example) " " =
    Ok [("1 Section One", 1%float); ("Lorem ipsum", 3%float)]%string.
Proof.
  split; [|split; [|split; [|split; [|split]]]].
  - exists (runs_of ls). apply runs_of_partition.
  - intros rs Hp. apply merge_optional_partition, Hp.
  - reflexivity.
  - intros n. apply merge_optional_markers.
  - intros ps Hne. apply merge_optional_single, Hne.
  - reflexivity.
Qed.

Lemma merge_optional_runs_witness :
  exists out,
    merge_optional (with_text docstring_example) " " = Ok out /\
    Forall2 (merges_run " ")
            (value_runs [Values [("1", 1%float); ("Section One", 2%float)];
                         Markers 1;
                         Values [("Lorem ipsum", 3%float)]]%string)
            out.
Proof.
  refine (proj1 (proj2 (merge_optional_runs " " docstring_example)) _ _).
  split; [reflexivity | split].
  - repeat constructor; discriminate.
  - cbn. repeat split; discriminate.
Defined.

(** C3, as stated, fails when a position is NaN: [min] keeps a leading NaN,
    which is not below the other positions of the run, and the result
    depends on the order of the run. *)
Lemma merge_optional_nan_not_minimum :
  merge_optional (with_text [Some ("a", nan); Some ("b", 1%float)]%string) " "
    = Ok [("a b"%string, nan)] /\
  (nan <=? 1)%float = false /\
  merge_optional (with_text [Some ("b", 1%float); Some ("a", nan)]%string) " "
    = Ok [("b a"%string, 1%float)].
Proof. repeat split. Qed.

(** ** Properties of [ToCFilter] *)

(** C5 (amended): [ToCFilter.init] fails at its level check exactly when
    [level] is absent or below 1: it raises [ValueError], with the message
    "filter's 'level' is not set" in the first case and "filter's 'level'
    must be >= 1" in the second, whatever the rest of the configuration,
    and returns no filter.  With [level >= 1] the outcome is that of
    [re.compile] on the font name pattern: a filter of that level when it
    returns, and otherwise the exception it raised, unchanged, and no
    filter.  So construction succeeds exactly when [level >= 1] and the
    pattern compiles. *)
Theorem ToCFilter_init_cases {re : ReEngine} (d : FilterDict.t) :
  (FilterDict.level d = None ->
   ToCFilter.init d = Raise (ValueError "filter's 'level' is not set")) /\
  (forall l, FilterDict.level d = Some l -> (l < 1)%Z ->
   ToCFilter.init d = Raise (ValueError "filter's 'level' must be >= 1")) /\
  (forall l, FilterDict.level d = Some l -> (1 <= l)%Z ->
   let pattern :=
     dict_get (FontDict.name (dict_get (FilterDict.font d) FontDict.empty))
              ""%string in
   match re_compile pattern with
   | Ok _ => exists f, ToCFilter.init d = Ok f /\ ToCFilter.level f = l
   | Raise e => ToCFilter.init d = Raise e
   end) /\
  ((exists f, ToCFilter.init d = Ok f) <->
   exists l p,
     FilterDict.level d = Some l /\ (1 <= l)%Z /\
     re_compile
       (dict_get (FontDict.name (dict_get (FilterDict.font d) FontDict.empty))
                 ""%string) = Ok p).
Proof.
  unfold ToCFilter.init, FontFilter.init.
  destruct (FilterDict.level d) as [l|].
  - destruct (Z.ltb_spec l 1) as [Hlt|Hge].
    + repeat split; try discriminate.
      * intros l' [= <-] Hge. lia.
      * intros [f H]. discriminate H.
      * intros (l' & p & [= <-] & Hge & _). lia.
    + repeat split; try discriminate.
      * intros l' [= <-] Hlt. lia.
      * intros l' [= <-] _. cbv zeta.
        destruct (re_compile _) as [p|e]; cbn [bind]; eauto.
      * intros [f H]. revert H.
        destruct (re_compile _) as [p|e]; cbn [bind]; [|discriminate].
        intros _. exists l, p. auto.
      * intros (l' & p & [= <-] & _ & ->). cbn [bind]. eauto.
  - repeat split; try discriminate.
    + intros [f H]. discriminate H.
    + intros (l & p & H & _). discriminate H.
Qed.

Lemma ToCFilter_init_cases_witness :
  exists f,
    ToCFilter.init (re := LiteralRe.engine) scenario_filter = Ok f /\
    ToCFilter.level f = 1%Z.
Proof.
  refine (proj1 (proj2 (proj2
            (ToCFilter_init_cases (re := LiteralRe.engine) scenario_filter)))
            1%Z eq_refl _).
  lia.
Defined.

(** C5, as stated, fails: with [level = 1] and the font name pattern "(",
    an unterminated group, construction raises the [re.error] of
    [re.compile]. *)
Lemma ToCFilter_init_bad_pattern :
  ToCFilter.init (re := LiteralRe.engine)
    (FilterDict.mk (Some 1%Z)
       (Some (FontDict.mk (Some "("%string) None None None
                          None None None None None))
       None)
  = Raise (ReError "(").
Proof. reflexivity. Qed.

(** ** Properties of [extract_toc] *)

(** C4: in the end-to-end scenario, the filter
    [{level: 1, font: {name: "Bold", bold: true}, bbox: {}}] on the page
    with the spans "Chapter 1" and "footnote" in one line and "Intro" in
    the next, [extract_toc] returns the two entries
    [(1, "Chapter 1", 1, 10)] and [(1, "Intro", 1, 11)], in that order, for
    every engine that finds "Bold" in "Bold-Font" and not in "Regular". *)
Theorem scenario_extract_toc {re : ReEngine} (p : Pattern) :
  re_compile "Bold"%string = Ok p ->
  re_search p "Bold-Font"%string = true ->
  re_search p "Regular"%string = false ->
  exists fltr,
    ToCFilter.init scenario_filter = Ok fltr /\
    extract_toc [scenario_page] fltr =
      Ok [ToCEntry.mk 1 "Chapter 1" 1 10%float;
          ToCEntry.mk 1 "Intro" 1 11%float].
Proof.
  intros Hc Hbold Hregular.
  unfold ToCFilter.init, FontFilter.init.
  cbn [scenario_filter FilterDict.level FilterDict.font FontDict.name
       dict_get Z.ltb Z.compare Pos.compare Pos.compare_cont].
  rewrite Hc. cbn [bind]. eexists. split; [reflexivity|].
  unfold extract_toc.
  cbn [enumerate scenario_page for_each Page.blocks Block.lines dict_get].
  unfold ToCFilter._extract_lines, ToCFilter._extract_spans,
    ToCFilter.admits, FontFilter.admits.
  cbn [map Line.spans dict_get chapter_span footnote_span intro_span
       Span.font ToCFilter.font FontFilter.name].
  rewrite Hbold, Hregular.
  reflexivity.
Qed.

Lemma scenario_extract_toc_witness :
  exists fltr,
    ToCFilter.init (re := LiteralRe.engine) scenario_filter = Ok fltr /\
    extract_toc [scenario_page] fltr =
      Ok [ToCEntry.mk 1 "Chapter 1" 1 10%float;
          ToCEntry.mk 1 "Intro" 1 11%float].
Proof.
  exact (scenario_extract_toc (re := LiteralRe.engine) (p := "Bold"%string)
           eq_refl eq_refl eq_refl).
Defined.

Lemma map_flat_map {A B C} (f : B -> C) (g : A -> list B) (xs : list A) :
  map f (flat_map g xs) = flat_map (fun x => map f (g x)) xs.
Proof.
  induction xs as [|x xs IH]; [reflexivity|].
  cbn [flat_map]. now rewrite map_app, IH.
Qed.

Lemma flat_map_map {A B C} (f : B -> list C) (g : A -> B) (xs : list A) :
  flat_map f (map g xs) = flat_map (fun x => f (g x)) xs.
Proof.
  induction xs as [|x xs IH]; [reflexivity|].
  cbn [map flat_map]. now rewrite IH.
Qed.

Lemma enumerate_In {A} (xs : list A) : forall start i x,
  In (i, x) (enumerate start xs) -> In x xs.
Proof.
  induction xs as [|y xs IH]; intros start i x; cbn [enumerate].
  - intros [].
  - intros [[= _ ->] | H]; [left; reflexivity | right; eapply IH, H].
Qed.

(** The pairs of [enumerate], read by position: the element at position [k]
    has the number [start + k]. *)
Lemma flat_map_enumerate {A B} (F : Z -> A -> list B) (xs : list A) :
  forall off : nat,
    flat_map (fun numbered => F (fst numbered) (snd numbered))
             (enumerate (Z.of_nat off + 1) xs) =
    flat_map (fun k => match nth_error xs k with
                       | Some x => F (Z.of_nat (off + k) + 1)%Z x
                       | None => []
                       end)
             (seq 0 (List.length xs)).
Proof.
  induction xs as [|x xs IH]; intros off; [reflexivity|].
  cbn [enumerate List.length seq flat_map nth_error fst snd].
  rewrite Nat.add_0_r. f_equal.
  rewrite <- seq_shift, flat_map_map.
  replace (Z.of_nat off + 1 + 1)%Z with (Z.of_nat (S off) + 1)%Z by lia.
  rewrite IH. apply flat_map_ext. intros k. cbn [nth_error].
  now rewrite Nat.add_succ_r.
Qed.

Section ExtractTocFacts.
Context {re : ReEngine}.

Lemma extract_toc_flat_mapM (fltr : ToCFilter.t) (pages : list Page.t) :
  extract_toc pages fltr = flat_mapM (page_step fltr) (enumerate 1 pages).
Proof.
  unfold extract_toc.
  rewrite for_each_flat_mapM with (f := page_step fltr).
  - destruct (flat_mapM _ _); reflexivity.
  - intros acc [pagenum page] _. unfold page_step.
    rewrite for_each_flat_mapM
      with (f := fun blk =>
                   merge_optional
                     (ToCFilter._extract_lines fltr
                        (dict_get (Block.lines blk) []))
                     DEF_SEP).
    + destruct (flat_mapM _ _); reflexivity.
    + intros acc' blk _. destruct (merge_optional _ _); reflexivity.
Qed.

(** The items extracted from lines whose admitted spans all have a text. *)
Lemma extract_lines_with_text (fltr : ToCFilter.t) (lines : list Line.t) :
  (forall ln spn, In ln lines -> In spn (dict_get (Line.spans ln) []) ->
                  ToCFilter.admits fltr spn = true -> Span.text spn <> None) ->
  forall v, ~ In (Some (None, v)) (ToCFilter._extract_lines fltr lines).
Proof.
  intros H v Hin. unfold ToCFilter._extract_lines in Hin.
  apply in_concat in Hin. destruct Hin as (items & Hitems & Hin).
  apply in_map_iff in Hitems. destruct Hitems as (ln & <- & Hln).
  unfold ToCFilter._extract_spans in Hin.
  apply in_map_iff in Hin. destruct Hin as (spn & Hspn & Hspns).
  destruct (ToCFilter.admits fltr spn) eqn:E; [|discriminate].
  injection Hspn as Ht _. exact (H ln spn Hln Hspns E Ht).
Qed.

Lemma page_step_Ok (fltr : ToCFilter.t) (pagenum : Z) (page : Page.t) :
  (forall blk ln spn,
     In blk (dict_get (Page.blocks page) []) ->
     In ln (dict_get (Block.lines blk) []) ->
     In spn (dict_get (Line.spans ln) []) ->
     ToCFilter.admits fltr spn = true -> Span.text spn <> None) ->
  page_step fltr (pagenum, page) = Ok (page_entries fltr pagenum page).
Proof.
  intros H. unfold page_step.
  rewrite flat_mapM_Ok with (g := block_entries fltr).
  - cbn [bind]. unfold page_entries. rewrite map_flat_map.
    f_equal. apply flat_map_ext. intros blk. apply map_ext. now intros [].
  - intros blk Hblk. unfold block_entries.
    destruct (merge_optional_Ok DEF_SEP
                (ToCFilter._extract_lines fltr
                   (dict_get (Block.lines blk) [])))
      as [out ->]; [|reflexivity].
    apply extract_lines_with_text. intros ln spn. apply H, Hblk.
Qed.

Lemma extract_toc_Ok (fltr : ToCFilter.t) (pages : list Page.t) :
  admitted_spans_have_text fltr pages ->
  extract_toc pages fltr = Ok (toc_entries fltr pages).
Proof.
  intros H. rewrite extract_toc_flat_mapM.
  rewrite flat_mapM_Ok
    with (g := fun numbered =>
                 page_entries fltr (fst numbered) (snd numbered)).
  - f_equal. unfold toc_entries.
    exact (flat_map_enumerate (page_entries fltr) pages 0).
  - intros [pagenum page] Hin. apply page_step_Ok.
    intros blk ln spn. apply H. eapply enumerate_In, Hin.
Qed.

Lemma page_step_Ok_inv (fltr : ToCFilter.t) (pagenum : Z) (page : Page.t) es :
  page_step fltr (pagenum, page) = Ok es ->
  es = page_entries fltr pagenum page.
Proof.
  unfold page_step. destruct (flat_mapM _ _) as [entries|e] eqn:E; [|discriminate].
  cbn [bind]. intros [= <-].
  apply flat_mapM_Ok_inv in E. destruct E as (g & Hg & ->).
  unfold page_entries. rewrite map_flat_map.
  apply flat_map_ext_In. intros blk Hblk.
  unfold block_entries. rewrite (Hg blk Hblk).
  apply map_ext. now intros [].
Qed.

(** Whatever [extract_toc] returns is [toc_entries]. *)
Lemma extract_toc_Ok_inv (fltr : ToCFilter.t) (pages : list Page.t) es :
  extract_toc pages fltr = Ok es -> es = toc_entries fltr pages.
Proof.
  rewrite extract_toc_flat_mapM. intros E.
  apply flat_mapM_Ok_inv in E. destruct E as (g & Hg & ->).
  transitivity (flat_map (fun numbered =>
                            page_entries fltr (fst numbered) (snd numbered))
                         (enumerate 1 pages)).
  - apply flat_map_ext_In. intros [pagenum page] Hin. cbn [fst snd].
    apply page_step_Ok_inv, Hg, Hin.
  - exact (flat_map_enumerate (page_entries fltr) pages 0).
Qed.

(** The only exception of [extract_toc] is the [TypeError] of [join]. *)
Lemma extract_toc_exn (fltr : ToCFilter.t) (pages : list Page.t) e :
  extract_toc pages fltr = Raise e -> exists i, e = JoinTypeError i.
Proof.
  rewrite extract_toc_flat_mapM. intros H.
  apply flat_mapM_Raise_inv in H. destruct H as ([pagenum page] & _ & He).
  unfold page_step in He.
  destruct (flat_mapM _ _) as [entries|e'] eqn:E; [discriminate|].
  injection He as <-.
  apply flat_mapM_Raise_inv in E. destruct E as (blk & _ & He).
  eapply merge_optional_exn, He.
Qed.

(** An admitted span without text makes [extract_toc] raise. *)
Lemma extract_toc_raises (fltr : ToCFilter.t) (pages : list Page.t)
      page blk ln spn :
  In page pages ->
  In blk (dict_get (Page.blocks page) []) ->
  In ln (dict_get (Block.lines blk) []) ->
  In spn (dict_get (Line.spans ln) []) ->
  ToCFilter.admits fltr spn = true ->
  Span.text spn = None ->
  exists i, extract_toc pages fltr = Raise (JoinTypeError i).
Proof.
  intros Hpage Hblk Hln Hspn Hadm Htext.
  assert (H : exists e, extract_toc pages fltr = Raise e).
  { rewrite extract_toc_flat_mapM.
    assert (Hnum : exists pagenum, In (pagenum, page) (enumerate 1 pages)).
    { clear - Hpage. generalize 1%Z.
      induction pages as [|q pages IH]; intros start; [contradiction|].
      destruct Hpage as [-> | Hpage].
      - exists start. left; reflexivity.
      - destruct (IH Hpage (start + 1)%Z) as [n Hn]. exists n. right; exact Hn. }
    destruct Hnum as [pagenum Hnum].
    apply flat_mapM_Raise with (x := (pagenum, page)); [exact Hnum|].
    unfold page_step.
    match goal with
    | |- context [flat_mapM ?f ?xs] =>
        destruct (@flat_mapM_Raise _ _ f xs blk Hblk) as [e ->]
    end; [|cbn; eauto].
    destruct (merge_optional_raises DEF_SEP
                (ToCFilter._extract_lines fltr (dict_get (Block.lines blk) []))
                (ToCFilter.bbox_top spn)) as [i ->]; [|eauto].
    unfold ToCFilter._extract_lines. apply in_concat.
    exists (ToCFilter._extract_spans fltr (dict_get (Line.spans ln) [])).
    split.
    - apply in_map_iff. exists ln. auto.
    - unfold ToCFilter._extract_spans. apply in_map_iff.
      exists spn. rewrite Hadm, Htext. auto. }
  destruct H as [e He]. destruct (extract_toc_exn _ _ He) as [i ->]. eauto.
Qed.

(** Every entry of [toc_entries] comes from the merge of one block of one
    page. *)
Lemma toc_entries_origin (fltr : ToCFilter.t) (pages : list Page.t) e :
  In e (toc_entries fltr pages) ->
  exists k page blk p,
    nth_error pages k = Some page /\
    In blk (dict_get (Page.blocks page) []) /\
    In p (block_entries fltr blk) /\
    e = ToCEntry.mk (ToCFilter.level fltr) (fst p) (Z.of_nat k + 1) (snd p).
Proof.
  unfold toc_entries. intros He.
  apply in_flat_map in He. destruct He as (k & _ & He).
  destruct (nth_error pages k) as [page|] eqn:Ek; [|contradiction].
  unfold page_entries in He.
  apply in_flat_map in He. destruct He as (blk & Hblk & He).
  apply in_map_iff in He. destruct He as (p & <- & Hp).
  exists k, page, blk, p. auto.
Qed.

End ExtractTocFacts.

(** X16: when every admitted span has a text, [extract_toc] returns the
    entries of the pages in page order, the page at position [k] of the
    list under the number [k + 1], within a page in block order, within a
    block the merged pairs of that block alone in their order, each with
    the level of the filter; the one other outcome is the [TypeError] of
    [join].  Every entry comes from the merge of one block.  On the empty
    page list the result is empty. *)
Theorem extract_toc_structure {re : ReEngine}
    (fltr : ToCFilter.t) (pages : list Page.t) :
  (extract_toc pages fltr = Ok (toc_entries fltr pages) \/
   exists item, extract_toc pages fltr = Raise (JoinTypeError item)) /\
  (admitted_spans_have_text fltr pages ->
   extract_toc pages fltr = Ok (toc_entries fltr pages)) /\
  (forall e, In e (toc_entries fltr pages) ->
     exists k page blk p,
       nth_error pages k = Some page /\
       In blk (dict_get (Page.blocks page) []) /\
       In p (block_entries fltr blk) /\
       e = ToCEntry.mk (ToCFilter.level fltr) (fst p)
                       (Z.of_nat k + 1) (snd p)) /\
  extract_toc [] fltr = Ok [].
Proof.
  split; [|split; [|split]].
  - destruct (extract_toc pages fltr) as [es|e] eqn:E.
    + left. f_equal. apply extract_toc_Ok_inv, E.
    + right. destruct (extract_toc_exn _ _ E) as [item ->]. eauto.
  - apply extract_toc_Ok.
  - apply toc_entries_origin.
  - reflexivity.
Qed.

Lemma extract_toc_structure_witness :
  extract_toc two_pages scenario_fltr =
    Ok (toc_entries scenario_fltr two_pages) /\
  toc_entries scenario_fltr two_pages =
    [ToCEntry.mk 1 "Chapter 1" 1 10%float;
     ToCEntry.mk 1 "Intro" 1 11%float;
     ToCEntry.mk 1 "Chapter 1" 1 10%float;
     ToCEntry.mk 1 "Intro" 2 11%float].
Proof.
  split; [|reflexivity].
  refine (proj1 (proj2 (extract_toc_structure scenario_fltr two_pages)) _).
  intros page blk ln spn Hpage Hblk Hln Hspn _.
  destruct Hpage as [<- | [<- | []]].
  - destruct Hblk as [<- | [<- | []]].
    + destruct Hln as [<- | []].
      destruct Hspn as [<- | []]; discriminate.
    + destruct Hln as [<- | [<- | []]].
      * destruct Hspn as [<- | [<- | []]]; discriminate.
      * destruct Hspn as [<- | []]; discriminate.
  - destruct Hblk as [<- | []]. destruct Hln as [<- | []].
    destruct Hspn as [<- | []]; discriminate.
Defined.

(** C8, on the code: with the filter [{level: 1}], the page whose span has
    a text gives its entry, numbered 1; followed by a page whose admitted
    span has no text, the same call raises the [TypeError] of [str.join]
    and returns no entry at all, not even that of the first page. *)
Theorem extract_toc_loses_pages :
  exists fltr,
    ToCFilter.init (re := LiteralRe.engine) (level_only 1) = Ok fltr /\
    extract_toc [page_of_spans [only_text "Chapter 1"]] fltr =
      Ok [ToCEntry.mk 1 "Chapter 1" 1 0%float] /\
    extract_toc page_then_no_text fltr = Raise (JoinTypeError 0).
Proof. eexists. repeat split. Qed.

(** ** Spans without [bbox] *)

Lemma min_from_zeros (xs : list float) :
  Forall (eq 0%float) xs -> min_from 0 xs = 0%float.
Proof.
  induction 1 as [|x xs <- _ IH]; [reflexivity|].
  cbn [min_from]. change (0 <? 0)%float with false. exact IH.
Qed.

Section MissingBbox.
Context {re : ReEngine}.

Lemma extract_spans_no_bbox (fltr : ToCFilter.t) (spns : list Span.t) :
  forall texts,
    Forall (fun spn => Span.bbox spn = None /\
                       ToCFilter.admits fltr spn = true) spns ->
    map Span.text spns = map Some texts ->
    ToCFilter._extract_spans fltr spns =
    with_text (map Some (map (fun t => (t, 0%float)) texts)).
Proof.
  induction spns as [|spn spns IH]; intros [|t texts] Hall Htexts;
    try discriminate; [reflexivity|].
  inversion Hall as [|? ? [Hbbox Hadm] Hrest]; subst.
  injection Htexts as Ht Htexts.
  cbn [ToCFilter._extract_spans map with_text option_map fst snd].
  rewrite Hadm, Ht. unfold ToCFilter.bbox_top. rewrite Hbbox.
  f_equal. apply IH; assumption.
Qed.

Lemma merge_no_bbox (fltr : ToCFilter.t) (spns : list Span.t) texts :
  spns <> [] ->
  Forall (fun spn => Span.bbox spn = None /\
                     ToCFilter.admits fltr spn = true) spns ->
  map Span.text spns = map Some texts ->
  merge_optional (ToCFilter._extract_spans fltr spns) DEF_SEP =
  Ok [(String.concat DEF_SEP texts, 0%float)].
Proof.
  intros Hne Hall Htexts.
  rewrite extract_spans_no_bbox with (texts := texts) by assumption.
  assert (Hps : map (fun t : string => (t, 0%float)) texts <> []).
  { destruct texts; [|discriminate].
    destruct spns; [now elim Hne | discriminate Htexts]. }
  destruct (merge_optional_single DEF_SEP Hps) as (m & -> & Hm & _).
  rewrite !map_map in *. cbn [fst snd] in *. rewrite map_id.
  destruct texts as [|t texts]; [now elim Hps|].
  cbn [map py_min] in Hm. rewrite min_from_zeros in Hm.
  - now injection Hm as <-.
  - apply Forall_map, Forall_forall. reflexivity.
Qed.

End MissingBbox.

(** C10: an admitted span without [bbox] is emitted by the extraction step
    with the vertical position 0, and a non-empty run of such spans, each
    with a text, becomes one entry whose vpos is 0. *)
Theorem missing_bbox_vpos_zero {re : ReEngine} (fltr : ToCFilter.t) :
  (forall spn,
     Span.bbox spn = None -> ToCFilter.admits fltr spn = true ->
     ToCFilter._extract_spans fltr [spn] = [Some (Span.text spn, 0%float)]) /\
  (forall spns texts,
     spns <> [] ->
     Forall (fun spn => Span.bbox spn = None /\
                        ToCFilter.admits fltr spn = true) spns ->
     map Span.text spns = map Some texts ->
     merge_optional (ToCFilter._extract_spans fltr spns) DEF_SEP =
       Ok [(String.concat DEF_SEP texts, 0%float)] /\
     extract_toc [page_of_spans spns] fltr =
       Ok [ToCEntry.mk (ToCFilter.level fltr) (String.concat DEF_SEP texts)
                       1 0%float]).
Proof.
  split.
  - intros spn Hbbox Hadm. cbn [ToCFilter._extract_spans map].
    rewrite Hadm. unfold ToCFilter.bbox_top. now rewrite Hbbox.
  - intros spns texts Hne Hall Htexts.
    pose proof (merge_no_bbox fltr texts Hne Hall Htexts) as Hmerge.
    split; [exact Hmerge|].
    rewrite extract_toc_flat_mapM.
    cbn [enumerate flat_mapM page_step page_of_spans Page.blocks Block.lines
         dict_get ToCFilter._extract_lines Line.spans map List.concat].
    rewrite app_nil_r, Hmerge. reflexivity.
Qed.

Lemma missing_bbox_vpos_zero_witness :
  extract_toc
    [page_of_spans [Span.mk (Some "Appendix"%string) (Some "Bold"%string)
                            None None (Some 16%Z) None]]
    scenario_fltr
  = Ok [ToCEntry.mk 1 "Appendix" 1 0%float].
Proof.
  refine (proj2 (proj2 (missing_bbox_vpos_zero scenario_fltr)
                  [Span.mk (Some "Appendix"%string) (Some "Bold"%string)
                           None None (Some 16%Z) None]
                  ["Appendix"%string] _ _ eq_refl)).
  - discriminate.
  - repeat constructor.
Defined.

(** ** Spans without [text] *)

(** C2, on the code: the filter [{level: 1}] admits the span without any
    key, whose text is then [None], and [extract_toc] raises the
    [TypeError] of [str.join] on the page that holds it. *)
Theorem missing_text_raises :
  exists fltr,
    ToCFilter.init (re := LiteralRe.engine) (level_only 1) = Ok fltr /\
    ToCFilter.admits fltr no_keys = true /\
    ToCFilter._extract_spans fltr [no_keys] = [Some (None, 0%float)] /\
    extract_toc [page_of_spans [no_keys]] fltr = Raise (JoinTypeError 0).
Proof. eexists. repeat split. Qed.

(** ** Further properties of [admits_float] *)

Section SpecFloatFacts.

Lemma SFabs_binary_round m e :
  SFabs (binary_round prec emax true m e) =
  SFabs (binary_round prec emax false m e).
Proof.
  unfold binary_round, binary_round_aux.
  destruct (shl_align _ _ _) as [mz ez].
  destruct (shr_fexp _ _ _ _ _) as [mrs' e'].
  destruct (shr_fexp _ _ _ _ _) as [mrs'' e''].
  destruct (shr_m mrs''); [reflexivity| |reflexivity].
  destruct (Z.leb _ _); reflexivity.
Qed.

Lemma SFabs_binary_normalize_opp m e :
  SFabs (binary_normalize prec emax (- m) e false) =
  SFabs (binary_normalize prec emax m e false).
Proof.
  destruct m as [|p|p]; cbn [Z.opp binary_normalize];
    [reflexivity | apply SFabs_binary_round
     | symmetry; apply SFabs_binary_round].
Qed.

(** The distance of two binary64 numbers does not depend on their order. *)
Lemma SFabs_sub_comm x y : SFabs (SF64sub x y) = SFabs (SF64sub y x).
Proof.
  destruct x as [sx|sx| |sx mx ex], y as [sy|sy| |sy my ey];
    try reflexivity;
    try (destruct sx, sy; reflexivity);
    try (destruct sx; reflexivity);
    try (destruct sy; reflexivity).
  unfold SF64sub, SFsub. rewrite (Z.min_comm ey ex).
  rewrite <- SFabs_binary_normalize_opp. f_equal. f_equal. lia.
Qed.

Lemma SFleb_nan_r x : SFleb x S754_nan = false.
Proof. destruct x as [s|s| |s m e]; reflexivity. Qed.

(** No absolute value is below a negative number. *)
Lemma SFleb_abs_negative x t :
  SFltb t (S754_zero false) = true -> SFleb (SFabs x) t = false.
Proof.
  destruct x as [s|s| |s m e], t as [s'|s'| |s' m' e'];
    try destruct s'; cbn; try discriminate; reflexivity.
Qed.

End SpecFloatFacts.

Lemma Prim2SF_nan (t : float) : is_nan t = true -> Prim2SF t = S754_nan.
Proof. intros H. unfold Prim2SF. now rewrite H. Qed.

(** X1: a larger tolerance admits whatever a smaller one admits. *)
Theorem admits_float_tolerance_monotone
    (expect actual : option float) (t t' : float) :
  (t <=? t')%float = true ->
  admits_float expect actual t = true ->
  admits_float expect actual t' = true.
Proof.
  intros Hle. destruct expect as [e|], actual as [a|]; cbn [admits_float]; auto.
  intros H. eapply leb_trans; eassumption.
Qed.

Lemma admits_float_tolerance_monotone_witness :
  admits_float (Some 12%float) (Some 12.5%float) 1%float = true.
Proof.
  exact (@admits_float_tolerance_monotone
           (Some 12%float) (Some 12.5%float) 0.5%float 1%float
           eq_refl eq_refl).
Defined.

(** X2: with a tolerance that is NaN or negative, a constrained value admits
    nothing, not even the expected value itself. *)
Theorem admits_float_bad_tolerance (e : float) (actual : option float)
    (t : float) :
  is_nan t = true \/ (t <? 0)%float = true ->
  admits_float (Some e) actual t = false.
Proof.
  intros Ht. destruct actual as [a|]; cbn [admits_float]; [|reflexivity].
  rewrite leb_spec, abs_spec.
  destruct Ht as [Hnan | Hneg].
  - rewrite (Prim2SF_nan _ Hnan). apply SFleb_nan_r.
  - rewrite ltb_spec in Hneg. apply SFleb_abs_negative, Hneg.
Qed.

Lemma admits_float_bad_tolerance_witness :
  admits_float (Some 12%float) (Some 12%float) (-1)%float = false.
Proof.
  exact (@admits_float_bad_tolerance 12%float (Some 12%float) (-1)%float
           (or_intror eq_refl)).
Defined.

(** X3: [admits_float] treats the expected and the actual value alike when
    both are present: exchanging them does not change the answer. *)
Theorem admits_float_symmetric (a b t : float) :
  admits_float (Some a) (Some b) t = admits_float (Some b) (Some a) t.
Proof.
  cbn [admits_float]. rewrite !leb_spec, !abs_spec, !sub_spec.
  now rewrite SFabs_sub_comm.
Qed.

(** ** Further properties of [FontFilter] and [BoundingBoxFilter] *)

Lemma admits_float_None_r (expect : option float) (t : float) :
  admits_float expect None t = true <-> expect = None.
Proof. destruct expect; cbn; split; congruence. Qed.

(** X4: a span without [bbox] passes the bounding-box filter exactly when
    the filter sets no bound at all. *)
Theorem bbox_filter_missing_bbox (self : BoundingBoxFilter.t) (spn : Span.t) :
  Span.bbox spn = None ->
  (BoundingBoxFilter.admits self spn = true <->
   BoundingBoxFilter.left self = None /\
   BoundingBoxFilter.top self = None /\
   BoundingBoxFilter.right self = None /\
   BoundingBoxFilter.bottom self = None).
Proof.
  intros Hbbox. unfold BoundingBoxFilter.admits, BoundingBoxFilter.coordinates.
  rewrite Hbbox, !andb_true_iff, !admits_float_None_r. tauto.
Qed.

Lemma bbox_filter_missing_bbox_witness :
  BoundingBoxFilter.admits
    (BoundingBoxFilter.init (BBoxDict.mk None (Some 10%float) None None None))
    no_keys = true <->
  BoundingBoxFilter.left
    (BoundingBoxFilter.init (BBoxDict.mk None (Some 10%float) None None None))
    = None /\
  BoundingBoxFilter.top
    (BoundingBoxFilter.init (BBoxDict.mk None (Some 10%float) None None None))
    = None /\
  BoundingBoxFilter.right
    (BoundingBoxFilter.init (BBoxDict.mk None (Some 10%float) None None None))
    = None /\
  BoundingBoxFilter.bottom
    (BoundingBoxFilter.init (BBoxDict.mk None (Some 10%float) None None None))
    = None.
Proof.
  exact (@bbox_filter_missing_bbox
           (BoundingBoxFilter.init
              (BBoxDict.mk None (Some 10%float) None None None))
           no_keys eq_refl).
Defined.

Section FontFilterMore.
Context {re : ReEngine}.

(** X5: in a constructed font filter the expected flags and the mask fit in
    five bits, and a flag is expected only where the mask constrains it. *)
Theorem font_filter_init_masks (fd : FontDict.t) (f : FontFilter.t) :
  FontFilter.init fd = Ok f ->
  (0 <= FontFilter.flags f < 32)%Z /\
  (0 <= FontFilter.ign_mask f < 32)%Z /\
  Z.land (FontFilter.flags f) (FontFilter.ign_mask f) = FontFilter.flags f.
Proof.
  intros Hinit.
  destruct (init_fields _ Hinit) as (_ & _ & _ & -> & ->).
  destruct (constraint_of fd superscript) as [[]|],
           (constraint_of fd italic) as [[]|],
           (constraint_of fd serif) as [[]|],
           (constraint_of fd monospace) as [[]|],
           (constraint_of fd bold) as [[]|];
    cbv; intuition congruence.
Qed.

(** X6: only the five low bits of a span's [flags] take part in the
    decision. *)
Theorem font_filter_low_bits (fd : FontDict.t) (f : FontFilter.t)
    (spn : Span.t) (z : Z) :
  FontFilter.init fd = Ok f ->
  FontFilter.admits f (with_flags spn (Z.land z 31)) =
  FontFilter.admits f (with_flags spn z).
Proof.
  intros Hinit. rewrite !admits_unfold. f_equal.
  cbn [with_flags Span.flags dict_get].
  apply Bool.eq_iff_eq_true.
  rewrite (masked_flags_present _ (Z.land z 31) Hinit),
          (masked_flags_present _ z Hinit).
  split; intros H s b Hs; specialize (H s b Hs);
    rewrite Z.land_spec in *; destruct s; cbn [bit_of] in *;
    change (Z.testbit 31 0) with true in *;
    change (Z.testbit 31 1) with true in *;
    change (Z.testbit 31 2) with true in *;
    change (Z.testbit 31 3) with true in *;
    change (Z.testbit 31 4) with true in *;
    rewrite andb_true_r in *; exact H.
Qed.

(** X7: a filter that constrains the colour or the size rejects every span
    that lacks that key. *)
Theorem font_filter_missing_key_rejects (fd : FontDict.t) (f : FontFilter.t)
    (spn : Span.t) :
  FontFilter.init fd = Ok f ->
  (FontDict.color fd <> None /\ Span.color spn = None) \/
  (FontDict.size fd <> None /\ Span.size spn = None) ->
  FontFilter.admits f spn = false.
Proof.
  intros Hinit H. rewrite admits_unfold. unfold passes_before_flags.
  destruct (init_fields _ Hinit) as (_ & -> & -> & _).
  destruct H as [[Hc ->] | [Hs ->]].
  - destruct (FontDict.color fd); [|congruence].
    cbn [FontFilter.color_differs negb]. now rewrite andb_false_r.
  - destruct (FontDict.size fd); [|congruence].
    cbn [admits_float]. now rewrite andb_false_r.
Qed.

End FontFilterMore.

Lemma font_filter_init_masks_witness :
  (0 <= 16 < 32)%Z /\ (0 <= 18 < 32)%Z /\ Z.land 16 18 = 16%Z.
Proof.
  exact (@font_filter_init_masks LiteralRe.engine bold_not_italic
           (FontFilter.mk (re := LiteralRe.engine)
                          ""%string None DEF_TOLERANCE None 16 18)
           eq_refl).
Defined.

Lemma font_filter_low_bits_witness :
  FontFilter.admits
    (FontFilter.mk (re := LiteralRe.engine)
                   ""%string None DEF_TOLERANCE None 16 18)
    (with_flags no_keys (Z.land 48 31)) =
  FontFilter.admits
    (FontFilter.mk (re := LiteralRe.engine)
                   ""%string None DEF_TOLERANCE None 16 18)
    (with_flags no_keys 48).
Proof.
  exact (@font_filter_low_bits LiteralRe.engine bold_not_italic _
           no_keys 48%Z eq_refl).
Defined.

Lemma font_filter_missing_key_rejects_witness :
  FontFilter.admits
    (FontFilter.mk (re := LiteralRe.engine)
                   ""%string (Some 12%float) DEF_TOLERANCE None 0 0)
    no_keys = false.
Proof.
  refine (@font_filter_missing_key_rejects LiteralRe.engine
            (FontDict.mk None (Some 12%float) None None
                         None None None None None)
            _ no_keys eq_refl (or_intror (conj _ eq_refl))).
  discriminate.
Defined.

(** ** Further properties of [ToCFilter] *)

Section ToCFilterMore.
Context {re : ReEngine}.

Lemma empty_bbox_filter_admits (spn : Span.t) :
  BoundingBoxFilter.admits (BoundingBoxFilter.init BBoxDict.empty) spn = true.
Proof.
  unfold BoundingBoxFilter.admits.
  destruct (BoundingBoxFilter.coordinates spn) as [[[c0 c1] c2] c3].
  reflexivity.
Qed.

(** X8: a configuration that gives only a level, at least 1, builds a filter
    of that level that admits every span, so that the extraction step emits
    every span with its text and its top; this for every engine in which
    the empty pattern matches every string. *)
Theorem level_only_filter_admits_all (l : Z) :
  empty_pattern_matches_all ->
  (1 <= l)%Z ->
  exists fltr,
    ToCFilter.init (level_only l) = Ok fltr /\
    ToCFilter.level fltr = l /\
    (forall spn, ToCFilter.admits fltr spn = true) /\
    (forall spns,
       ToCFilter._extract_spans fltr spns =
       map (fun spn => Some (Span.text spn, ToCFilter.bbox_top spn)) spns).
Proof.
  intros (p & Hc & Hs) Hl.
  unfold ToCFilter.init, FontFilter.init.
  cbn [level_only FilterDict.level FilterDict.font FilterDict.bbox dict_get
       FontDict.empty FontDict.name].
  destruct (Z.ltb_spec l 1) as [Hlt|_]; [lia|].
  rewrite Hc. cbn [bind]. eexists. split; [reflexivity|].
  split; [reflexivity|].
  assert (Hadm : forall spn,
             ToCFilter.admits
               {| ToCFilter.level := l;
                  ToCFilter.font :=
                    {| FontFilter.name := p;
                       FontFilter.size := None;
                       FontFilter.size_tolerance := DEF_TOLERANCE;
                       FontFilter.color := None;
                       FontFilter.flags := 0;
                       FontFilter.ign_mask := 0 |};
                  ToCFilter.bbox := BoundingBoxFilter.init BBoxDict.empty |}
               spn = true).
  { intros spn. unfold ToCFilter.admits. cbn [ToCFilter.font ToCFilter.bbox].
    rewrite empty_bbox_filter_admits, andb_true_r.
    rewrite admits_unfold. unfold passes_before_flags.
    cbn [FontFilter.name FontFilter.color FontFilter.size
         FontFilter.ign_mask FontFilter.color_differs admits_float negb].
    rewrite Hs. cbn [andb]. now rewrite Z.land_0_r. }
  split; [exact Hadm|].
  intros spns. unfold ToCFilter._extract_spans.
  apply map_ext. intros spn. now rewrite Hadm.
Qed.

(** X9: extracting from lines is extracting from their spans put end to
    end: every span gives one item, in order, and a line break leaves no
    trace. *)
Theorem extract_lines_spans (fltr : ToCFilter.t) (lines : list Line.t) :
  ToCFilter._extract_lines fltr lines =
    ToCFilter._extract_spans fltr (spans_of lines) /\
  List.length (ToCFilter._extract_lines fltr lines) =
    List.length (spans_of lines) /\
  map is_None (ToCFilter._extract_lines fltr lines) =
    map (fun spn => negb (ToCFilter.admits fltr spn)) (spans_of lines).
Proof.
  assert (H : ToCFilter._extract_lines fltr lines =
              ToCFilter._extract_spans fltr (spans_of lines)).
  { unfold ToCFilter._extract_lines, spans_of.
    induction lines as [|ln lines IH]; [reflexivity|].
    cbn [map List.concat flat_map]. rewrite IH.
    unfold ToCFilter._extract_spans. now rewrite map_app. }
  rewrite H. unfold ToCFilter._extract_spans.
  split; [reflexivity|]. split; [apply length_map|].
  rewrite map_map. apply map_ext. intros spn.
  now destruct (ToCFilter.admits fltr spn).
Qed.

End ToCFilterMore.

Lemma level_only_filter_admits_all_witness :
  exists fltr : ToCFilter.t (re := LiteralRe.engine),
    ToCFilter.init (level_only 2) = Ok fltr /\
    ToCFilter.level fltr = 2%Z /\
    (forall spn, ToCFilter.admits fltr spn = true) /\
    (forall spns,
       ToCFilter._extract_spans fltr spns =
       map (fun spn => Some (Span.text spn, ToCFilter.bbox_top spn)) spns).
Proof.
  refine (@level_only_filter_admits_all LiteralRe.engine 2%Z
            literal_empty_pattern _).
  lia.
Defined.

(** ** Further properties of [merge_optional] *)

Lemma flat_mapM_app {A B} (f : A -> result (list B)) (xs ys : list A) :
  flat_mapM f (xs ++ ys) = then_append (flat_mapM f xs) (flat_mapM f ys).
Proof.
  unfold then_append.
  induction xs as [|x xs IH]; cbn [app flat_mapM bind].
  - destruct (flat_mapM f ys); reflexivity.
  - destruct (f x) as [a|e]; cbn [bind]; [|reflexivity]. rewrite IH.
    destruct (flat_mapM f xs) as [b|e]; cbn [bind]; [|reflexivity].
    destruct (flat_mapM f ys) as [c|e]; cbn [bind]; [|reflexivity].
    now rewrite app_assoc.
Qed.

Lemma groupby_head_key {A} (key : A -> bool) x (ls : list A) k g gs :
  groupby key (x :: ls) = (k, g) :: gs -> k = key x.
Proof.
  cbn [groupby]. destruct (groupby key ls) as [|[k' g'] gs'].
  - now intros [= <- _ _].
  - destruct (Bool.eqb (key x) k') eqn:E.
    + apply Bool.eqb_prop in E. now intros [= <- _ _].
    + now intros [= <- _ _].
Qed.

Lemma segments_nonempty {A} (ls : list (option A)) : segments ls <> [].
Proof.
  destruct ls as [|[p|] ls]; cbn [segments]; try discriminate.
  destruct (segments ls); discriminate.
Qed.

Lemma flat_mapM_skip {A B} (f : A -> result (list B)) x (xs : list A) :
  f x = Ok [] -> flat_mapM f (x :: xs) = flat_mapM f xs.
Proof.
  intros H. cbn [flat_mapM]. rewrite H. cbn [bind].
  destruct (flat_mapM f xs); reflexivity.
Qed.

(** The groups of [groupby] and the segments give the same merge. *)
Lemma merge_groups_segments sep (ls : list (option (option string * float))) :
  flat_mapM (merge_group sep) (groupby is_None ls) =
    flat_mapM (merge_segment sep) (segments ls) /\
  (forall p ls', ls = Some p :: ls' ->
     exists seg segs gs,
       segments ls = (p :: seg) :: segs /\
       groupby is_None ls = (false, Some p :: map Some seg) :: gs /\
       flat_mapM (merge_group sep) gs = flat_mapM (merge_segment sep) segs).
Proof.
  induction ls as [|x l [IH1 IH2]].
  - split; [reflexivity | discriminate].
  - destruct x as [p|].
    + assert (H : exists seg segs gs,
                 segments (Some p :: l) = (p :: seg) :: segs /\
                 groupby is_None (Some p :: l) =
                   (false, Some p :: map Some seg) :: gs /\
                 flat_mapM (merge_group sep) gs =
                   flat_mapM (merge_segment sep) segs).
      { destruct l as [|[q|] l'].
        - exists [], [], []. repeat split.
        - destruct (IH2 q l' eq_refl) as (seg & segs & gs & Hs & Hg & Hm).
          exists (q :: seg), segs, gs.
          cbn [segments groupby] in *. rewrite Hs, Hg. cbn [is_None Bool.eqb].
          repeat split. exact Hm.
        - exists [], (segments l'), (groupby is_None (None :: l')).
          split; [reflexivity|]. split.
          + change (groupby is_None (Some p :: None :: l'))
              with (match groupby is_None (None :: l') with
                    | (k, grp) :: groups =>
                        if Bool.eqb false k then (k, Some p :: grp) :: groups
                        else (false, [Some p]) :: (k, grp) :: groups
                    | [] => [(false, [Some p])]
                    end).
            destruct (groupby is_None (None :: l')) as [|[k g] gs] eqn:E.
            * cbn [groupby is_None] in E.
              destruct (groupby is_None l') as [|[k' g'] gs'];
                [discriminate|].
              destruct (Bool.eqb true k'); discriminate.
            * apply groupby_head_key in E. subst k. reflexivity.
          + rewrite IH1. cbn [segments]. now apply flat_mapM_skip. }
      split.
      * destruct H as (seg & segs & gs & -> & -> & Hm).
        cbn [flat_mapM]. rewrite Hm. reflexivity.
      * intros p' ls' [= <- <-]. exact H.
    + split; [|discriminate].
      cbn [segments]. rewrite flat_mapM_skip by reflexivity. rewrite <- IH1.
      cbn [groupby]. destruct (groupby is_None l) as [|[k g] gs].
      * reflexivity.
      * destruct k; cbn [is_None Bool.eqb];
          rewrite !flat_mapM_skip by reflexivity; reflexivity.
Qed.

Lemma segments_split {A} (xs ys : list (option A)) :
  segments (xs ++ None :: ys) = segments xs ++ segments ys.
Proof.
  induction xs as [|[p|] xs IH]; cbn [app segments].
  - reflexivity.
  - rewrite IH. pose proof (segments_nonempty xs) as Hne.
    destruct (segments xs); [congruence | reflexivity].
  - now rewrite IH.
Qed.

(** X10: a marker cuts the merge in two: the result on a list with a marker
    is the result on what precedes the marker followed by the result on
    what follows it, and the first exception, if any, is that of the
    whole. *)
Theorem merge_optional_split (sep : string)
    (xs ys : list (option (option string * float))) :
  merge_optional (xs ++ None :: ys) sep =
  then_append (merge_optional xs sep) (merge_optional ys sep).
Proof.
  rewrite !merge_optional_flat_mapM.
  rewrite !(proj1 (merge_groups_segments sep _)).
  now rewrite segments_split, flat_mapM_app.
Qed.

(** X11: [merge_optional] returns exactly when every present pair has a
    text, and the one exception it raises is the [TypeError] of [join]. *)
Theorem merge_optional_Ok_iff (sep : string)
    (ls : list (option (option string * float))) :
  ((exists out, merge_optional ls sep = Ok out) <->
   forall v, ~ In (Some (None, v)) ls) /\
  (forall e, merge_optional ls sep = Raise e ->
             exists item, e = JoinTypeError item).
Proof.
  split; [split|].
  - intros [out Hout] v Hin.
    destruct (merge_optional_raises sep ls v Hin) as [i Hi]. congruence.
  - apply merge_optional_Ok.
  - intros e. apply merge_optional_exn.
Qed.

(** ** Further properties of [extract_toc] *)

Lemma enumerate_app {A} (xs ys : list A) : forall start,
  enumerate start (xs ++ ys) =
  enumerate start xs ++ enumerate (start + Z.of_nat (List.length xs)) ys.
Proof.
  induction xs as [|x xs IH]; intros start; cbn [app enumerate List.length].
  - now rewrite Z.add_0_r.
  - rewrite IH. do 3 f_equal. lia.
Qed.

Section ExtractTocMore.
Context {re : ReEngine}.

Lemma page_step_shift (fltr : ToCFilter.t) (n : nat) pagenum page :
  page_step fltr (pagenum + Z.of_nat n, page)%Z =
  result_map (map (shift_page n)) (page_step fltr (pagenum, page)).
Proof.
  unfold page_step, result_map.
  destruct (flat_mapM _ _) as [entries|e]; cbn [bind]; [|reflexivity].
  rewrite map_map. f_equal. apply map_ext. now intros [title vpos].
Qed.

Lemma pages_shift (fltr : ToCFilter.t) (n : nat) (pages : list Page.t) :
  forall start,
    flat_mapM (page_step fltr) (enumerate (start + Z.of_nat n) pages) =
    result_map (map (shift_page n))
               (flat_mapM (page_step fltr) (enumerate start pages)).
Proof.
  induction pages as [|page pages IH]; intros start; [reflexivity|].
  cbn [enumerate flat_mapM]. rewrite page_step_shift.
  replace (start + Z.of_nat n + 1)%Z with (start + 1 + Z.of_nat n)%Z by lia.
  rewrite IH. unfold result_map.
  destruct (page_step fltr (start, page)) as [a|e]; cbn [bind]; [|reflexivity].
  destruct (flat_mapM _ _) as [b|e]; cbn [bind]; [|reflexivity].
  now rewrite map_app.
Qed.

(** X12: the extraction of a page list cut in two is the extraction of the
    first part followed by that of the second part with every page number
    raised by the length of the first; page numbers count from the start
    of the list given, and the first exception, if any, is that of the
    whole. *)
Theorem extract_toc_app (fltr : ToCFilter.t) (pages1 pages2 : list Page.t) :
  extract_toc (pages1 ++ pages2) fltr =
  then_append
    (extract_toc pages1 fltr)
    (result_map (map (shift_page (List.length pages1)))
                (extract_toc pages2 fltr)).
Proof.
  rewrite !extract_toc_flat_mapM, enumerate_app, flat_mapM_app.
  now rewrite pages_shift.
Qed.

(** X13: every entry [extract_toc] returns has the level of the filter and
    a page number between 1 and the number of pages. *)
Theorem extract_toc_entries_bounds (fltr : ToCFilter.t)
    (pages : list Page.t) (es : list ToCEntry.t) (e : ToCEntry.t) :
  extract_toc pages fltr = Ok es ->
  In e es ->
  ToCEntry.level e = ToCFilter.level fltr /\
  (1 <= ToCEntry.pagenum e <= Z.of_nat (List.length pages))%Z.
Proof.
  intros Hes He. apply extract_toc_Ok_inv in Hes. subst es.
  apply toc_entries_origin in He.
  destruct He as (k & page & blk & p & Hk & _ & _ & ->).
  cbn [ToCEntry.level ToCEntry.pagenum]. split; [reflexivity|].
  assert (k < List.length pages)%nat
    by (apply nth_error_Some; congruence).
  lia.
Qed.

Lemma items_all_None {A} (ls : list (option A)) :
  Forall (fun x => x = None) ls -> ls = repeat None (List.length ls).
Proof.
  induction 1 as [|x ls -> _ IH]; [reflexivity|].
  cbn [List.length repeat]. now rewrite <- IH.
Qed.

(** X14: when the filter admits no span of the pages, [extract_toc] returns
    the empty list; so it does on pages, blocks and lines that lack their
    [blocks], [lines] or [spans]. *)
Theorem extract_toc_nothing_admitted (fltr : ToCFilter.t)
    (pages : list Page.t) :
  (forall page blk ln spn,
     In page pages ->
     In blk (dict_get (Page.blocks page) []) ->
     In ln (dict_get (Block.lines blk) []) ->
     In spn (dict_get (Line.spans ln) []) ->
     ToCFilter.admits fltr spn = false) ->
  extract_toc pages fltr = Ok [].
Proof.
  intros H. rewrite extract_toc_flat_mapM.
  rewrite flat_mapM_Ok with (g := fun _ => []).
  - f_equal. induction (enumerate 1 pages); [reflexivity | assumption].
  - intros [pagenum page] Hin. apply enumerate_In in Hin. unfold page_step.
    rewrite flat_mapM_Ok with (g := fun _ => []).
    + cbn [bind]. f_equal.
      induction (dict_get (Page.blocks page) []); [reflexivity | assumption].
    + intros blk Hblk.
      rewrite (items_all_None
                 (ls := ToCFilter._extract_lines fltr
                          (dict_get (Block.lines blk) []))).
      * apply merge_optional_markers.
      * apply Forall_forall. intros x Hx.
        unfold ToCFilter._extract_lines in Hx.
        apply in_concat in Hx. destruct Hx as (items & Hitems & Hx).
        apply in_map_iff in Hitems. destruct Hitems as (ln & <- & Hln).
        unfold ToCFilter._extract_spans in Hx.
        apply in_map_iff in Hx. destruct Hx as (spn & <- & Hspn).
        now rewrite (H page blk ln spn Hin Hblk Hln Hspn).
Qed.

(** X15: [extract_toc] returns exactly when every span the filter admits
    has a text, and the one exception it raises is the [TypeError] of
    [join]. *)
Theorem extract_toc_Ok_iff (fltr : ToCFilter.t) (pages : list Page.t) :
  ((exists es, extract_toc pages fltr = Ok es) <->
   admitted_spans_have_text fltr pages) /\
  (forall e, extract_toc pages fltr = Raise e ->
             exists item, e = JoinTypeError item).
Proof.
  split; [split|].
  - intros [es Hes] page blk ln spn Hpage Hblk Hln Hspn Hadm Htext.
    destruct (extract_toc_raises fltr pages page blk ln spn
                Hpage Hblk Hln Hspn Hadm Htext) as [i Hi].
    congruence.
  - intros H. eexists. apply extract_toc_Ok, H.
  - intros e. apply extract_toc_exn.
Qed.

End ExtractTocMore.

Lemma extract_toc_entries_bounds_witness :
  ToCEntry.level (ToCEntry.mk 1 "Intro" 1 11%float) =
    ToCFilter.level scenario_fltr /\
  (1 <= ToCEntry.pagenum (ToCEntry.mk 1 "Intro" 1 11%float)
     <= Z.of_nat (List.length [scenario_page]))%Z.
Proof.
  refine (@extract_toc_entries_bounds LiteralRe.engine scenario_fltr
            [scenario_page]
            [ToCEntry.mk 1 "Chapter 1" 1 10%float;
             ToCEntry.mk 1 "Intro" 1 11%float]
            (ToCEntry.mk 1 "Intro" 1 11%float) eq_refl _).
  right; left; reflexivity.
Defined.

Lemma extract_toc_nothing_admitted_witness :
  extract_toc [page_of_spans [footnote_span]; Page.mk None] scenario_fltr
  = Ok [].
Proof.
  refine (@extract_toc_nothing_admitted LiteralRe.engine scenario_fltr
            [page_of_spans [footnote_span]; Page.mk None] _).
  intros page blk ln spn [<- | [<- | []]] Hblk Hln Hspn.
  - destruct Hblk as [<- | []]. destruct Hln as [<- | []].
    destruct Hspn as [<- | []]. reflexivity.
  - destruct Hblk.
Defined.

Lemma merge_optional_Ok_iff_witness :
  exists out, merge_optional (with_text docstring_example) " " = Ok out.
Proof.
  refine (proj2 (proj1 (merge_optional_Ok_iff " "
                          (with_text docstring_example))) _).
  intros v [H | [H | [H | [H | []]]]]; discriminate H.
Defined.

Lemma extract_toc_Ok_iff_witness :
  exists es, extract_toc [scenario_page] scenario_fltr = Ok es.
Proof.
  refine (proj2 (proj1 (@extract_toc_Ok_iff LiteralRe.engine scenario_fltr
                          [scenario_page])) _).
  intros page blk ln spn Hpage Hblk Hln Hspn _.
  destruct Hpage as [<- | []].
  destruct Hblk as [<- | []].
  destruct Hln as [<- | [<- | []]].
  - destruct Hspn as [<- | [<- | []]]; discriminate.
  - destruct Hspn as [<- | []]; discriminate.
Defined.
